(** * The voice-chat page script (src/main.ts), embedded in Rocq

    The script is an async function that runs once when the page loads and
    registers callbacks on a voice client, a media recorder, an audio
    element and an image.  It is modelled as

    - a record [Vars] of the variables shared by the callbacks,
    - a small state / exception / trace monad [M] in which every function
      of the script is written with the statements in source order,
    - one transition [step] per browser callback.

    Calls that leave the script (browser APIs and the voice SDK) are
    recorded as [Action]s in the trace; what such a call answers is an
    input of the function that awaits it. *)

From Stdlib Require Import String Ascii List ZArith Bool Arith Lia.
Import ListNotations.
Local Open Scope list_scope.
Local Open Scope string_scope.
Local Set Warnings "-register-all".

(* ------------------------------------------------------------------ *)
(** ** Values *)

(** A thrown JavaScript value, kept as its message. *)
Definition JsError := string.

(** How an evaluation or an awaited promise ends. *)
Inductive Completion (A : Type) : Type :=
| Normal (a : A)
| Thrown (e : JsError).
Arguments Normal {A} a.
Arguments Thrown {A} e.

(** Values produced by [res.json()] and by property access on them.  A
    number is kept as the text [String] renders for it; floating point is
    not modelled.  The property list of an object has distinct keys. *)
Inductive JSValue : Type :=
| JUndefined
| JNull
| JBool (b : bool)
| JNum (shown : string)
| JStr (s : string)
| JArr (items : list JSValue)
| JObj (props : list (string * JSValue)).

(** Browser and SDK objects.  Objects created by the script carry the
    number they were created with, which is their identity. *)
Record Blob := mkBlob { blobBytes : string; blobType : string }.
Definition ArrayBuffer := string.
Record MediaStream := mkStream { streamId : nat }.
Record Response := mkResponse { responseId : nat }.
Record Audio := mkAudio { audioId : nat; audioSrc : Blob }.
Definition Client := nat.
Definition Recorder := nat.

(** [blob.size] *)
Definition size (b : Blob) : Z := Z.of_nat (String.length (blobBytes b)).

(** [WebSocket.OPEN] *)
Definition WebSocket_OPEN : Z := 1.

(** A paragraph appended to the chat. *)
Record Element := mkElement { tagName : string; innerHTML : string }.

(** The argument of [fetch]. *)
Record Request := mkRequest {
  url : string;
  method : string;
  headers : list (string * string);
  body : string;
  cache : string
}.

(** The [message] member of a chat message. *)
Record ChatMessage := mkChatMessage { role : string; content : string }.

(** Messages of the voice socket, a union discriminated by [type]. *)
Inductive Message : Type :=
| UserMessage (message : ChatMessage)
| AssistantMessage (message : ChatMessage)
| AudioOutput (data : string)
| UserInterruption
| OtherMessage (type : string).

Definition message_type (m : Message) : string :=
  match m with
  | UserMessage _ => "user_message"
  | AssistantMessage _ => "assistant_message"
  | AudioOutput _ => "audio_output"
  | UserInterruption => "user_interruption"
  | OtherMessage t => t
  end.

(* ------------------------------------------------------------------ *)
(** ** Calls that leave the script *)

Inductive Action : Type :=
| AGetAudioStream
| AConsoleError (msg : string) (e : JsError)
| AConsoleLog (msg : string)
| AFetch (req : Request)
| AResJson (res : Response)
| ACreateClient (c : Client) (token : option string)
| AOn (c : Client) (event : string)
| AClientConnect (c : Client)
| AClientDisconnect (c : Client)
| AAddClickListener
| ACheckForAudioTracks (s : MediaStream)
| ANewRecorder (r : Recorder) (s : MediaStream) (mime : string)
| ARecorderStart (r : Recorder) (timeslice : Z)
| ARecorderStop (r : Recorder)
| AArrayBuffer (d : Blob)
| ASendAudio (c : Client) (buffer : ArrayBuffer)
| ACreateObjectURL (b : Blob)
| APlay (a : Audio)
| APause (a : Audio).

(* ------------------------------------------------------------------ *)
(** ** State *)

(** The variables the functions of the script share.  Their declarations
    are not part of the source file; there is one field for each free
    variable that the functions read or assign.  [accessToken] is [None]
    until [authenticate] stores a token. *)
Record Vars := mkVars {
  accessToken : option string;
  client : option Client;
  audioStream : option MediaStream;
  recorder : option Recorder;
  currentAudio : option Audio;
  isPlaying : bool;
  audioQueue : list Blob;
  mimeType : string
}.

(** The page and the browser around the script.
    - [chat], [gif]: the two elements looked up by id, [None] when the
      page has no such element; [gif] holds whether the click listener
      is attached.
    - [playing]: the audio elements that were started and have neither
      ended nor been paused.
    - [maxConcurrent]: the largest size [playing] ever had.
    - [nextId]: the number of the next object the script creates.
    - [awaitingStream], [awaitingBuffer]: suspended calls of
      [captureAudio] and of the recorder callback, each waiting for the
      promise it awaits. *)
Record Page := mkPage {
  chat : option (list Element);
  gif : option bool;
  playing : list Audio;
  maxConcurrent : nat;
  nextId : nat;
  awaitingStream : nat;
  awaitingBuffer : nat
}.

Record World := mkWorld { vars : Vars; page : Page }.

Definition set_accessToken (x : option string) (v : Vars) : Vars :=
  mkVars x (client v) (audioStream v) (recorder v) (currentAudio v)
         (isPlaying v) (audioQueue v) (mimeType v).
Definition set_client (x : option Client) (v : Vars) : Vars :=
  mkVars (accessToken v) x (audioStream v) (recorder v) (currentAudio v)
         (isPlaying v) (audioQueue v) (mimeType v).
Definition set_audioStream (x : option MediaStream) (v : Vars) : Vars :=
  mkVars (accessToken v) (client v) x (recorder v) (currentAudio v)
         (isPlaying v) (audioQueue v) (mimeType v).
Definition set_recorder (x : option Recorder) (v : Vars) : Vars :=
  mkVars (accessToken v) (client v) (audioStream v) x (currentAudio v)
         (isPlaying v) (audioQueue v) (mimeType v).
Definition set_currentAudio (x : option Audio) (v : Vars) : Vars :=
  mkVars (accessToken v) (client v) (audioStream v) (recorder v) x
         (isPlaying v) (audioQueue v) (mimeType v).
Definition set_isPlaying (x : bool) (v : Vars) : Vars :=
  mkVars (accessToken v) (client v) (audioStream v) (recorder v)
         (currentAudio v) x (audioQueue v) (mimeType v).
Definition set_audioQueue (x : list Blob) (v : Vars) : Vars :=
  mkVars (accessToken v) (client v) (audioStream v) (recorder v)
         (currentAudio v) (isPlaying v) x (mimeType v).

Definition set_chat (x : option (list Element)) (p : Page) : Page :=
  mkPage x (gif p) (playing p) (maxConcurrent p) (nextId p)
         (awaitingStream p) (awaitingBuffer p).
Definition set_gif (x : option bool) (p : Page) : Page :=
  mkPage (chat p) x (playing p) (maxConcurrent p) (nextId p)
         (awaitingStream p) (awaitingBuffer p).
Definition set_playing (x : list Audio) (p : Page) : Page :=
  mkPage (chat p) (gif p) x (Nat.max (maxConcurrent p) (List.length x))
         (nextId p) (awaitingStream p) (awaitingBuffer p).
Definition set_nextId (x : nat) (p : Page) : Page :=
  mkPage (chat p) (gif p) (playing p) (maxConcurrent p) x
         (awaitingStream p) (awaitingBuffer p).
Definition set_awaitingStream (x : nat) (p : Page) : Page :=
  mkPage (chat p) (gif p) (playing p) (maxConcurrent p) (nextId p)
         x (awaitingBuffer p).
Definition set_awaitingBuffer (x : nat) (p : Page) : Page :=
  mkPage (chat p) (gif p) (playing p) (maxConcurrent p) (nextId p)
         (awaitingStream p) x.

(* ------------------------------------------------------------------ *)
(** ** The monad of the script *)

Module Script.

(** A computation reads and writes the world, records the calls it makes
    and ends normally or by a throw.  A throw keeps the writes and the
    calls made before it. *)
Definition M (A : Type) : Type := World -> Completion A * World * list Action.

Definition ret {A} (a : A) : M A := fun w => (Normal a, w, []).

Definition bind {A B} (m : M A) (f : A -> M B) : M B := fun w =>
  match m w with
  | (Normal a, w1, t1) =>
      match f a w1 with (r, w2, t2) => (r, w2, (t1 ++ t2)%list) end
  | (Thrown e, w1, t1) => (Thrown e, w1, t1)
  end.

(** The value of an expression that may throw, or of an awaited promise
    that may reject. *)
Definition await {A} (r : Completion A) : M A := fun w => (r, w, []).

(** [try { m } catch (e) { h e }] *)
Definition try_catch {A} (m : M A) (h : JsError -> M A) : M A := fun w =>
  match m w with
  | (Normal a, w1, t1) => (Normal a, w1, t1)
  | (Thrown e, w1, t1) =>
      match h e w1 with (r, w2, t2) => (r, w2, (t1 ++ t2)%list) end
  end.

Definition emit (a : Action) : M unit := fun w => (Normal tt, w, [a]).

Definition getv {A} (f : Vars -> A) : M A := fun w => (Normal (f (vars w)), w, []).
Definition setv (f : Vars -> Vars) : M unit :=
  fun w => (Normal tt, mkWorld (f (vars w)) (page w), []).
Definition getp {A} (f : Page -> A) : M A := fun w => (Normal (f (page w)), w, []).
Definition setp (f : Page -> Page) : M unit :=
  fun w => (Normal tt, mkWorld (vars w) (f (page w)), []).

(** [o?.f()] : the call is made when [o] is not null. *)
Definition when_some {A} (o : option A) (f : A -> M unit) : M unit :=
  match o with Some a => f a | None => ret tt end.

End Script.
Import Script.

Declare Scope script_scope.
Delimit Scope script_scope with script.
Notation "x <- m ;; k" := (bind m (fun x => k))
  (at level 100, m at next level, right associativity) : script_scope.
Notation "m ;; k" := (bind m (fun _ => k))
  (at level 100, right associativity) : script_scope.
Local Open Scope script_scope.

Definition completion {A} (x : Completion A * World * list Action) : Completion A :=
  fst (fst x).
Definition world_of {A} (x : Completion A * World * list Action) : World :=
  snd (fst x).
Definition trace_of {A} (x : Completion A * World * list Action) : list Action :=
  snd x.

(* ------------------------------------------------------------------ *)
(** ** JavaScript expressions the script evaluates *)

(** [x || ''] for an environment variable: the empty string when the
    variable is unset (or empty). *)
Definition or_empty (x : option string) : string :=
  match x with
  | Some s => s
  | None => ""
  end.

(** Whether an object has a property of its own under [key]. *)
Definition has_own (key : string) (props : list (string * JSValue)) : bool :=
  existsb (fun kv => String.eqb (fst kv) key) props.

(** [String(v)].  An array is joined with commas, [null] and [undefined]
    elements giving the empty text.  An object answers
    [[object Object]] through the [toString] it inherits; a parsed object
    with a [toString] member of its own has no callable [toString] (a
    parsed value is never a function), and the conversion throws.  The
    first element of an array that throws makes the whole conversion
    throw. *)
Fixpoint js_String (v : JSValue) : Completion string :=
  match v with
  | JUndefined => Normal "undefined"
  | JNull => Normal "null"
  | JBool true => Normal "true"
  | JBool false => Normal "false"
  | JNum shown => Normal shown
  | JStr s => Normal s
  | JArr items =>
      (fix join (l : list JSValue) : Completion string :=
         match l with
         | [] => Normal ""
         | x :: rest =>
             match match x with
                   | JUndefined | JNull => Normal ""
                   | _ => js_String x
                   end with
             | Thrown e => Thrown e
             | Normal first =>
                 match rest with
                 | [] => Normal first
                 | _ :: _ =>
                     match join rest with
                     | Thrown e => Thrown e
                     | Normal others => Normal (first ++ "," ++ others)
                     end
                 end
             end
         end) items
  | JObj props =>
      if has_own "toString" props
      then Thrown "TypeError: Cannot convert object to primitive value"
      else Normal "[object Object]"
  end.

Fixpoint lookup_prop (key : string) (props : list (string * JSValue)) : JSValue :=
  match props with
  | [] => JUndefined
  | (k, v) :: rest => if String.eqb k key then v else lookup_prop key rest
  end.

(** [v[key]] for a key that is neither an index nor a member of a
    built-in prototype, as [access_token] is: reading it from [null] or
    [undefined] throws, an object answers its own property, every other
    value answers [undefined]. *)
Definition get_property (v : JSValue) (key : string) : Completion JSValue :=
  match v with
  | JUndefined => Thrown "TypeError: Cannot read properties of undefined"
  | JNull => Thrown "TypeError: Cannot read properties of null"
  | JObj props => Normal (lookup_prop key props)
  | _ => Normal JUndefined
  end.

(** [new URLSearchParams(record).toString()]: the form-urlencoded
    serialisation of the pairs. *)
Definition hex_digit (n : nat) : ascii :=
  nth n (list_ascii_of_string "0123456789ABCDEF") "0"%char.

Definition form_unreserved (n : nat) : bool :=
  (((48 <=? n) && (n <=? 57)) || ((65 <=? n) && (n <=? 90))
   || ((97 <=? n) && (n <=? 122))
   || (n =? 42) || (n =? 45) || (n =? 46) || (n =? 95))%nat.

Definition form_byte (c : ascii) : string :=
  let n := nat_of_ascii c in
  if form_unreserved n then String c EmptyString
  else if (n =? 32)%nat then "+"
  else String "%" (String (hex_digit (n / 16)) (String (hex_digit (n mod 16)) EmptyString)).

Fixpoint form_encode (s : string) : string :=
  match s with
  | EmptyString => EmptyString
  | String c rest => form_byte c ++ form_encode rest
  end.

Definition URLSearchParams_toString (params : list (string * string)) : string :=
  String.concat "&"
    (map (fun kv => form_encode (fst kv) ++ "=" ++ form_encode (snd kv)) params).

Definition token_endpoint : string := "https://api.hume.ai/oauth2-cc/token".

(** The request [authenticate] passes to [fetch]. *)
Definition token_request (encoded : string) : Request :=
  {| url := token_endpoint;
     method := "POST";
     headers := [ ("Content-Type", "application/x-www-form-urlencoded");
                  ("Authorization", "Basic " ++ encoded) ];
     body := URLSearchParams_toString [ ("grant_type", "client_credentials") ];
     cache := "no-cache" |}.

(** The paragraph [appendMessage] builds. *)
Definition message_element (timestamp role content : string) : Element :=
  {| tagName := "p";
     innerHTML := "<strong>[" ++ timestamp ++ "] " ++ role ++ ":</strong> " ++ content |}.

(* ------------------------------------------------------------------ *)
(** ** Browser primitives *)

Definition same_audio (a b : Audio) : bool := (audioId a =? audioId b)%nat.

Definition is_playing_now (a : Audio) (l : list Audio) : bool :=
  existsb (same_audio a) l.

Definition without (a : Audio) (l : list Audio) : list Audio :=
  filter (fun b => negb (same_audio a b)) l.

(** The next object number. *)
Definition fresh : M nat :=
  n <- getp nextId ;;
  setp (set_nextId (S n)) ;;
  ret n.

(** [a.play()] *)
Definition play (a : Audio) : M unit :=
  emit (APlay a) ;;
  l <- getp playing ;;
  setp (set_playing (a :: l)).

(** [a.pause()] *)
Definition pause (a : Audio) : M unit :=
  emit (APause a) ;;
  l <- getp playing ;;
  setp (set_playing (without a l)).

(** [chat?.appendChild(el)] *)
Definition appendChild (el : Element) : M unit :=
  c <- getp chat ;;
  when_some c (fun children => setp (set_chat (Some (children ++ [el])%list))).

(* ------------------------------------------------------------------ *)
(** ** The functions of the script *)

Section Program.

(** [btoa] of the browser: base64 of a string of characters up to U+00FF,
    a throw for any other string. *)
Variable btoa : string -> Completion string.

(** [base64ToBlob] of the SDK: the blob of the decoded bytes with the
    given type, a throw when the text is not base64. *)
Variable base64ToBlob : string -> string -> Completion Blob.

(** [mic] is how the promise of [getAudioStream()] settles. *)
Definition requestMicrophonePermission (mic : Completion MediaStream) : M unit :=
  try_catch
    (emit AGetAudioStream ;;
     _ <- await mic ;;
     ret tt)
    (fun e => emit (AConsoleError "Failed to get microphone permission:" e)).

(** [apiKeyEnv], [clientSecretEnv]: the two environment variables;
    [fetched], [parsed]: how [fetch(...)] and [res.json()] settle. *)
Definition authenticate (apiKeyEnv clientSecretEnv : option string)
    (fetched : Completion Response) (parsed : Completion JSValue) : M unit :=
  let apiKey := or_empty apiKeyEnv in
  let clientSecret := or_empty clientSecretEnv in
  let authString := apiKey ++ ":" ++ clientSecret in
  encoded <- await (btoa authString) ;;
  try_catch
    (emit (AFetch (token_request encoded)) ;;
     res <- await fetched ;;
     emit (AResJson res) ;;
     data <- await parsed ;;
     token <- await (get_property data "access_token") ;;
     text <- await (js_String token) ;;
     setv (set_accessToken (Some text)))
    (fun e => emit (AConsoleError "Failed to authenticate:" e)).

(** [createConfig] of the SDK checks the configuration it is given and
    throws when the access token is not a string, as it is while
    [accessToken] was never assigned. *)
Definition createConfig_refusal : JsError :=
  "ZodError: auth.value: Required".

Definition createConfig (token : option string) : Completion unit :=
  match token with
  | Some _ => Normal tt
  | None => Thrown createConfig_refusal
  end.

Definition connect : M unit :=
  token <- getv accessToken ;;
  await (createConfig token) ;;
  c <- fresh ;;
  emit (ACreateClient c token) ;;
  setv (set_client (Some c)) ;;
  emit (AOn c "open") ;;
  emit (AOn c "message") ;;
  emit (AOn c "close") ;;
  emit (AClientConnect c).

Definition appendMessage (timestamp role content : string) : M unit :=
  appendChild (message_element timestamp role content).

Definition playAudio : M unit :=
  queue <- getv audioQueue ;;
  flag <- getv isPlaying ;;
  if (0 <? List.length queue)%nat && negb flag then
    setv (set_isPlaying true) ;;
    setv (set_audioQueue (tl queue)) ;;
    match hd_error queue with
    | Some audioBlob =>
        emit (ACreateObjectURL audioBlob) ;;
        n <- fresh ;;
        setv (set_currentAudio (Some (mkAudio n audioBlob))) ;;
        play (mkAudio n audioBlob)
    | None => ret tt
    end
  else ret tt.

(** The [onended] callback [playAudio] gives to every audio element. *)
Definition onended : M unit :=
  setv (set_isPlaying false) ;;
  queue <- getv audioQueue ;;
  if negb (List.length queue =? 0)%nat then playAudio else ret tt.

Definition stopAudio : M unit :=
  a <- getv currentAudio ;;
  when_some a pause ;;
  setv (set_currentAudio None) ;;
  setv (set_isPlaying false) ;;
  setv (set_audioQueue []).

Definition disconnect (now : string) : M unit :=
  stopAudio ;;
  r <- getv recorder ;;
  when_some r (fun r => emit (ARecorderStop r)) ;;
  setv (set_recorder None) ;;
  setv (set_audioStream None) ;;
  c <- getv client ;;
  when_some c (fun c => emit (AClientDisconnect c)) ;;
  appendMessage now "system" "Conversation ended.".

(** [captureAudio] up to its [await]. *)
Definition captureAudio_call : M unit :=
  emit AGetAudioStream ;;
  n <- getp awaitingStream ;;
  setp (set_awaitingStream (S n)).

(** [captureAudio] after its [await]: [stream] is how [getAudioStream()]
    settled, [checked] how [checkForAudioTracks] ends on that stream.
    The [MediaRecorder] constructor and [start] are taken as calls that
    do not throw. *)
Definition captureAudio_resume (stream : Completion MediaStream)
    (checked : Completion unit) : M unit :=
  s <- await stream ;;
  setv (set_audioStream (Some s)) ;;
  emit (ACheckForAudioTracks s) ;;
  await checked ;;
  r <- fresh ;;
  mime <- getv mimeType ;;
  emit (ANewRecorder r s mime) ;;
  setv (set_recorder (Some r)) ;;
  emit (ARecorderStart r 100).

(** The recorder's [ondataavailable] up to its [await]; [readyState] is
    what [client.readyState] reads when the callback runs. *)
Definition ondataavailable (data : Blob) (readyState : Z) : M unit :=
  c <- getv client ;;
  if (0 <? size data)%Z
     && match c with
        | Some _ => (readyState =? WebSocket_OPEN)%Z
        | None => false
        end
  then
    emit (AArrayBuffer data) ;;
    n <- getp awaitingBuffer ;;
    setp (set_awaitingBuffer (S n))
  else ret tt.

(** [client.sendAudio(buffer)] of the SDK: the call throws when the
    socket is not open; [readyState] is what the client reads then. *)
Definition sendAudio_refusal : JsError := "Error: Socket is not open.".

Definition sendAudio (c : Client) (buffer : ArrayBuffer) (readyState : Z)
  : M unit :=
  emit (ASendAudio c buffer) ;;
  if (readyState =? WebSocket_OPEN)%Z
  then ret tt
  else await (Thrown sendAudio_refusal).

(** [ondataavailable] after its [await]; [readyState] is what the client
    reads when the callback resumes. *)
Definition ondataavailable_resume (buffer : Completion ArrayBuffer)
    (readyState : Z) : M unit :=
  b <- await buffer ;;
  c <- getv client ;;
  when_some c (fun c => sendAudio c b readyState).

(** The client's [open] callback. *)
Definition onOpen : M unit :=
  emit (AConsoleLog "Web socket connection opened") ;;
  captureAudio_call.

(** The client's [message] callback; [now] is what
    [new Date().toLocaleTimeString()] answers. *)
Definition onMessage (now : string) (m : Message) : M unit :=
  match m with
  | UserMessage message | AssistantMessage message =>
      appendMessage now (role message) (content message)
  | AudioOutput audioOutput =>
      mime <- getv mimeType ;;
      blob <- await (base64ToBlob audioOutput mime) ;;
      queue <- getv audioQueue ;;
      setv (set_audioQueue (queue ++ [blob])%list) ;;
      queue' <- getv audioQueue ;;
      if (List.length queue' <=? 1)%nat then playAudio else ret tt
  | UserInterruption => stopAudio
  | OtherMessage _ => ret tt
  end.

(** The client's [close] callback. *)
Definition onClose : M unit :=
  emit (AConsoleLog "Web socket connection closed").

(** The click listener of the gif. *)
Definition onClick (readyState : Z) (now : string) : M unit :=
  c <- getv client ;;
  match c with
  | Some _ =>
      if (readyState =? WebSocket_OPEN)%Z then disconnect now else connect
  | None => ret tt
  end.

(** [gif?.addEventListener('click', ...)] *)
Definition wireClick : M unit :=
  g <- getp gif ;;
  when_some g (fun _ => emit AAddClickListener ;; setp (set_gif (Some true))).

(** What the start of the page reads from outside. *)
Record Startup := mkStartup {
  VITE_HUME_API_KEY : option string;
  VITE_HUME_CLIENT_SECRET : option string;
  micPromise : Completion MediaStream;
  fetchPromise : Completion Response;
  jsonPromise : Completion JSValue
}.

(** The body of the async function, run once. *)
Definition main (i : Startup) : M unit :=
  requestMicrophonePermission (micPromise i) ;;
  authenticate (VITE_HUME_API_KEY i) (VITE_HUME_CLIENT_SECRET i)
               (fetchPromise i) (jsonPromise i) ;;
  connect ;;
  wireClick.

(* ------------------------------------------------------------------ *)
(** ** The callbacks as transitions *)

Inductive Event : Type :=
| EvOpen
| EvStream (stream : Completion MediaStream) (checked : Completion unit)
| EvMessage (now : string) (m : Message)
| EvClose
| EvClick (readyState : Z) (now : string)
| EvData (data : Blob) (readyState : Z)
| EvBuffer (buffer : Completion ArrayBuffer) (readyState : Z)
| EvEnded (a : Audio).

(** One callback run to its end or to its [await].  The browser delivers
    - [ended] only for an element that is playing, which then no longer
      plays;
    - the settlement of a promise only to a call that awaits it;
    - a click to the listener only once it is attached. *)
Definition step (w : World) (ev : Event)
  : option (Completion unit * World * list Action) :=
  match ev with
  | EvOpen => Some (onOpen w)
  | EvStream stream checked =>
      match awaitingStream (page w) with
      | S n => Some ((setp (set_awaitingStream n) ;;
                      captureAudio_resume stream checked) w)
      | O => None
      end
  | EvMessage now m => Some (onMessage now m w)
  | EvClose => Some (onClose w)
  | EvClick readyState now =>
      match gif (page w) with
      | Some true => Some (onClick readyState now w)
      | _ => Some (ret tt w)
      end
  | EvData data readyState => Some (ondataavailable data readyState w)
  | EvBuffer buffer readyState =>
      match awaitingBuffer (page w) with
      | S n => Some ((setp (set_awaitingBuffer n) ;;
                      ondataavailable_resume buffer readyState) w)
      | O => None
      end
  | EvEnded a =>
      if is_playing_now a (playing (page w))
      then Some ((setp (set_playing (without a (playing (page w)))) ;;
                  onended) w)
      else None
  end.

(** A sequence of callbacks; the trace is the concatenation of theirs.  A
    callback that throws leaves a rejected promise nobody handles. *)
Fixpoint run (w : World) (evs : list Event) : option (World * list Action) :=
  match evs with
  | [] => Some (w, [])
  | ev :: rest =>
      match step w ev with
      | Some (_, w1, t1) =>
          match run w1 rest with
          | Some (w2, t2) => Some (w2, (t1 ++ t2)%list)
          | None => None
          end
      | None => None
      end
  end.

End Program.

(* ------------------------------------------------------------------ *)
(** ** Vocabulary of the properties *)

(** What the [try] block of [authenticate] ends with: the text to store,
    or the first error among [fetch], [res.json()], the read of
    [access_token] and [String]. *)
Definition token_outcome (fetched : Completion Response)
    (parsed : Completion JSValue) : Completion string :=
  match fetched with
  | Thrown e => Thrown e
  | Normal _ =>
      match parsed with
      | Thrown e => Thrown e
      | Normal data =>
          match get_property data "access_token" with
          | Thrown e => Thrown e
          | Normal token => js_String token
          end
      end
  end.

(** The token [authenticate] leaves in [accessToken]: the new text, or
    the token from before when the [try] block threw. *)
Definition token_after (before : option string)
    (fetched : Completion Response) (parsed : Completion JSValue)
  : option string :=
  match token_outcome fetched parsed with
  | Normal text => Some text
  | Thrown _ => before
  end.

(** The calls [authenticate] makes after [fetch]. *)
Definition token_log (fetched : Completion Response)
    (parsed : Completion JSValue) : list Action :=
  (match fetched with
   | Normal res => [AResJson res]
   | Thrown _ => []
   end
   ++ match token_outcome fetched parsed with
      | Normal _ => []
      | Thrown e => [AConsoleError "Failed to authenticate:" e]
      end)%list.

(** The world after [appendMessage]. *)
Definition with_message (el : Element) (w : World) : World :=
  mkWorld (vars w)
          (set_chat (option_map (fun children => (children ++ [el])%list)
                                (chat (page w)))
                    (page w)).

(** The world after [playAudio] has taken [b], the head of the queue, and
    started an element for it; [rest] is the tail of the queue. *)
Definition started (b : Blob) (rest : list Blob) (w : World) : World :=
  mkWorld
    (set_currentAudio (Some (mkAudio (nextId (page w)) b))
       (set_audioQueue rest (set_isPlaying true (vars w))))
    (set_playing (mkAudio (nextId (page w)) b :: playing (page w))
       (set_nextId (S (nextId (page w))) (page w))).

(** The world in which [playAudio] calls [play] for [b]: the flag is
    set, the queue is cut, [currentAudio] names the new element. *)
Definition about_to_play (b : Blob) (rest : list Blob) (w : World) : World :=
  mkWorld
    (set_currentAudio (Some (mkAudio (nextId (page w)) b))
       (set_audioQueue rest (set_isPlaying true (vars w))))
    (set_nextId (S (nextId (page w))) (page w)).

(** The world after [stopAudio]. *)
Definition stopped (w : World) : World :=
  mkWorld
    (set_audioQueue [] (set_isPlaying false (set_currentAudio None (vars w))))
    (match currentAudio (vars w) with
     | Some a => set_playing (without a (playing (page w))) (page w)
     | None => page w
     end).

(** The calls [stopAudio] makes. *)
Definition stop_trace (w : World) : list Action :=
  match currentAudio (vars w) with
  | Some a => [APause a]
  | None => []
  end.

(** A blob leaves the queue for playback: the call that follows
    [audioQueue.shift()]. *)
Definition is_dequeue (a : Action) : bool :=
  match a with
  | ACreateObjectURL _ => true
  | _ => false
  end.

Definition dequeues (tr : list Action) : nat := List.length (filter is_dequeue tr).

Definition is_play (a : Action) : bool :=
  match a with
  | APlay _ => true
  | _ => false
  end.

(** The elements a trace starts. *)
Definition plays (tr : list Action) : nat := List.length (filter is_play tr).

Definition is_send (a : Action) : bool :=
  match a with
  | ASendAudio _ _ => true
  | _ => false
  end.

Definition sends (tr : list Action) : nat := List.length (filter is_send tr).

Definition is_ended (ev : Event) : bool :=
  match ev with
  | EvEnded _ => true
  | _ => false
  end.

Definition is_audio_output (ev : Event) : bool :=
  match ev with
  | EvMessage _ (AudioOutput _) => true
  | _ => false
  end.

(** The callbacks that run [stopAudio] in world [w]: an interruption
    message, and a click on the wired gif while the client is open. *)
Definition calls_stopAudio (w : World) (ev : Event) : bool :=
  match ev with
  | EvMessage _ UserInterruption => true
  | EvClick readyState _ =>
      match gif (page w), client (vars w) with
      | Some true, Some _ => (readyState =? WebSocket_OPEN)%Z
      | _, _ => false
      end
  | _ => false
  end.

(** Whatever the browser plays is the element [currentAudio] names, the
    flag is then set, and no two elements were ever playing together. *)
Definition playback_ok (w : World) : Prop :=
  (playing (page w) = []
   \/ exists a, playing (page w) = [a]
                /\ currentAudio (vars w) = Some a
                /\ isPlaying (vars w) = true)
  /\ (maxConcurrent (page w) <= 1)%nat.

(** The condition under which the recorder callback goes on to send. *)
Definition chunk_admitted (w : World) (data : Blob) (readyState : Z) : Prop :=
  (0 < size data)%Z
  /\ (exists c, client (vars w) = Some c)
  /\ readyState = WebSocket_OPEN.

Definition chunk_admittedb (w : World) (data : Blob) (readyState : Z) : bool :=
  (0 <? size data)%Z
  && match client (vars w) with
     | Some _ => (readyState =? WebSocket_OPEN)%Z
     | None => false
     end.

(** The four stages of the start of the page, by the call that marks
    each. *)
Inductive Stage : Type := Microphone | Token | Socket | Wiring.

Definition stage_of (a : Action) : option Stage :=
  match a with
  | AGetAudioStream => Some Microphone
  | AFetch _ => Some Token
  | AClientConnect _ => Some Socket
  | AAddClickListener => Some Wiring
  | _ => None
  end.

Fixpoint stages (tr : list Action) : list Stage :=
  match tr with
  | [] => []
  | a :: rest =>
      match stage_of a with
      | Some s => s :: stages rest
      | None => stages rest
      end
  end.

(** The world after [connect]. *)
Definition connected (w : World) : World :=
  mkWorld (set_client (Some (nextId (page w))) (vars w))
          (set_nextId (S (nextId (page w))) (page w)).

(** The calls [connect] makes. *)
Definition connect_trace (w : World) : list Action :=
  [ ACreateClient (nextId (page w)) (accessToken (vars w));
    AOn (nextId (page w)) "open";
    AOn (nextId (page w)) "message";
    AOn (nextId (page w)) "close";
    AClientConnect (nextId (page w)) ].

(** The world with the playing flag cleared, as [onended] first does. *)
Definition flag_off (w : World) : World :=
  mkWorld (set_isPlaying false (vars w)) (page w).

(** The world after [audioQueue.push(b)]. *)
Definition pushed (b : Blob) (w : World) : World :=
  mkWorld (set_audioQueue (audioQueue (vars w) ++ [b])%list (vars w)) (page w).

(** The world in which the browser has taken [a] out of playback. *)
Definition ended_world (a : Audio) (w : World) : World :=
  mkWorld (vars w) (set_playing (without a (playing (page w))) (page w)).

(** The world after a suspended recorder callback was registered. *)
Definition awaiting_buffer (w : World) : World :=
  mkWorld (vars w) (set_awaitingBuffer (S (awaitingBuffer (page w))) (page w)).

(** The calls [disconnect] makes on the recorder. *)
Definition recorder_stop_trace (w : World) : list Action :=
  match recorder (vars w) with
  | Some r => [ARecorderStop r]
  | None => []
  end.

(** The world after [disconnect]. *)
Definition disconnected (now : string) (w : World) : World :=
  with_message (message_element now "system" "Conversation ended.")
    (mkWorld (set_audioStream None (set_recorder None (vars (stopped w))))
             (page (stopped w))).

(** The part of the world that playback is about. *)
Definition audio_state (w : World)
  : list Blob * bool * option Audio * list Audio * nat :=
  (audioQueue (vars w), isPlaying (vars w), currentAudio (vars w),
   playing (page w), maxConcurrent (page w)).

(** What a callback does to the playback state: nothing, a push, a push
    followed by the start of the pushed blob, a stop, or the [onended]
    callback. *)
Inductive Effect (w : World) (ev : Event) (w' : World) (tr : list Action) : Prop :=
| eff_neutral :
    audio_state w' = audio_state w -> dequeues tr = 0%nat ->
    plays tr = 0%nat ->
    is_ended ev = false -> calls_stopAudio w ev = false ->
    Effect w ev w' tr
| eff_push (b : Blob) :
    is_audio_output ev = true ->
    audioQueue (vars w) <> [] \/ isPlaying (vars w) = true ->
    audio_state w' = audio_state (pushed b w) -> tr = [] ->
    Effect w ev w' tr
| eff_push_start (b : Blob) :
    is_audio_output ev = true ->
    audioQueue (vars w) = [] -> isPlaying (vars w) = false ->
    audio_state w' = audio_state (started b [] w) ->
    tr = [ACreateObjectURL b; APlay (mkAudio (nextId (page w)) b)] ->
    Effect w ev w' tr
| eff_stop :
    calls_stopAudio w ev = true ->
    audio_state w' = audio_state (stopped w) -> dequeues tr = 0%nat ->
    plays tr = 0%nat ->
    Effect w ev w' tr
| eff_ended (a : Audio) :
    ev = EvEnded a ->
    is_playing_now a (playing (page w)) = true ->
    (Normal tt, w', tr) = onended (ended_world a w) ->
    Effect w ev w' tr.

(** The recorded chunks of a run that passed the test of the recorder
    callback, each counted in the world it arrived in. *)
Fixpoint admitted (base64ToBlob : string -> string -> Completion Blob)
    (w : World) (evs : list Event) : nat :=
  match evs with
  | [] => 0
  | ev :: rest =>
      (match ev with
       | EvData data readyState =>
           if chunk_admittedb w data readyState then 1 else 0
       | _ => 0
       end
       + match step base64ToBlob w ev with
         | Some (_, w1, _) => admitted base64ToBlob w1 rest
         | None => 0
         end)%nat
  end.


(** One activation of the script: the start of the page, or a callback. *)
Inductive Transition (btoa : string -> Completion string)
    (base64ToBlob : string -> string -> Completion Blob)
  : World -> World -> Prop :=
| by_main (i : Startup) (w : World) :
    Transition btoa base64ToBlob w (world_of (main btoa i w))
| by_step (w : World) (ev : Event) r w' tr :
    step base64ToBlob w ev = Some (r, w', tr) ->
    Transition btoa base64ToBlob w w'.

(** The world a callback leaves, the same world when the browser does not
    deliver the event. *)
Definition next (base64ToBlob : string -> string -> Completion Blob)
    (w : World) (ev : Event) : World :=
  match step base64ToBlob w ev with
  | Some (_, w', _) => w'
  | None => w
  end.

(** A variable no activation ever changes. *)
Definition constant {A} (field : Vars -> A) : Prop :=
  forall btoa base64ToBlob w w',
    Transition btoa base64ToBlob w w' -> field (vars w') = field (vars w).

(** A variable some activation changes. *)
Definition mutable {A} (field : Vars -> A) : Prop :=
  exists btoa base64ToBlob w w',
    Transition btoa base64ToBlob w w' /\ field (vars w') <> field (vars w).

(* ------------------------------------------------------------------ *)
(** ** Every callback, case by case *)

(** The world after [captureAudio] has called [getAudioStream()]. *)
Definition capture_requested (w : World) : World :=
  mkWorld (vars w) (set_awaitingStream (S (awaitingStream (page w))) (page w)).

(** The world in which a suspended [captureAudio] resumes, [n] others
    still waiting. *)
Definition capture_resumed (n : nat) (w : World) : World :=
  mkWorld (vars w) (set_awaitingStream n (page w)).

(** The world after [audioStream = await getAudioStream()]. *)
Definition stream_kept (s : MediaStream) (w : World) : World :=
  mkWorld (set_audioStream (Some s) (vars w)) (page w).

(** The world after [captureAudio] has created and started a recorder on
    stream [s]. *)
Definition recording (s : MediaStream) (w : World) : World :=
  mkWorld (set_recorder (Some (nextId (page w)))
             (set_audioStream (Some s) (vars w)))
          (set_nextId (S (nextId (page w))) (page w)).

(** The world in which a suspended recorder callback resumes, [n] others
    still waiting. *)
Definition buffer_resumed (n : nat) (w : World) : World :=
  mkWorld (vars w) (set_awaitingBuffer n (page w)).

(** What a callback does, one case for each path through its code. *)
Inductive Stepped (base64ToBlob : string -> string -> Completion Blob)
    (w : World) : Event -> Completion unit -> World -> list Action -> Prop :=
| did_open :
    Stepped base64ToBlob w EvOpen (Normal tt) (capture_requested w)
      [AConsoleLog "Web socket connection opened"; AGetAudioStream]
| did_stream_rejected n e checked :
    awaitingStream (page w) = S n ->
    Stepped base64ToBlob w (EvStream (Thrown e) checked) (Thrown e)
      (capture_resumed n w) []
| did_stream_unchecked n s e :
    awaitingStream (page w) = S n ->
    Stepped base64ToBlob w (EvStream (Normal s) (Thrown e)) (Thrown e)
      (stream_kept s (capture_resumed n w)) [ACheckForAudioTracks s]
| did_stream_recording n s :
    awaitingStream (page w) = S n ->
    Stepped base64ToBlob w (EvStream (Normal s) (Normal tt)) (Normal tt)
      (recording s (capture_resumed n w))
      [ACheckForAudioTracks s;
       ANewRecorder (nextId (page w)) s (mimeType (vars w));
       ARecorderStart (nextId (page w)) 100]
| did_user now message :
    Stepped base64ToBlob w (EvMessage now (UserMessage message)) (Normal tt)
      (with_message (message_element now (role message) (content message)) w)
      []
| did_assistant now message :
    Stepped base64ToBlob w (EvMessage now (AssistantMessage message))
      (Normal tt)
      (with_message (message_element now (role message) (content message)) w)
      []
| did_audio_rejected now d e :
    base64ToBlob d (mimeType (vars w)) = Thrown e ->
    Stepped base64ToBlob w (EvMessage now (AudioOutput d)) (Thrown e) w []
| did_audio_queued now d b :
    base64ToBlob d (mimeType (vars w)) = Normal b ->
    audioQueue (vars w) <> [] \/ isPlaying (vars w) = true ->
    Stepped base64ToBlob w (EvMessage now (AudioOutput d)) (Normal tt)
      (pushed b w) []
| did_audio_started now d b :
    base64ToBlob d (mimeType (vars w)) = Normal b ->
    audioQueue (vars w) = [] -> isPlaying (vars w) = false ->
    Stepped base64ToBlob w (EvMessage now (AudioOutput d)) (Normal tt)
      (started b [] w)
      [ACreateObjectURL b; APlay (mkAudio (nextId (page w)) b)]
| did_interruption now :
    Stepped base64ToBlob w (EvMessage now UserInterruption) (Normal tt)
      (stopped w) (stop_trace w)
| did_other now type :
    Stepped base64ToBlob w (EvMessage now (OtherMessage type)) (Normal tt) w []
| did_close :
    Stepped base64ToBlob w EvClose (Normal tt) w
      [AConsoleLog "Web socket connection closed"]
| did_click_unwired readyState now :
    gif (page w) <> Some true ->
    Stepped base64ToBlob w (EvClick readyState now) (Normal tt) w []
| did_click_no_client readyState now :
    gif (page w) = Some true -> client (vars w) = None ->
    Stepped base64ToBlob w (EvClick readyState now) (Normal tt) w []
| did_click_disconnect readyState now c :
    gif (page w) = Some true -> client (vars w) = Some c ->
    readyState = WebSocket_OPEN ->
    Stepped base64ToBlob w (EvClick readyState now) (Normal tt)
      (disconnected now w)
      (stop_trace w ++ recorder_stop_trace w ++ [AClientDisconnect c])%list
| did_click_connect readyState now c token :
    gif (page w) = Some true -> client (vars w) = Some c ->
    readyState <> WebSocket_OPEN ->
    accessToken (vars w) = Some token ->
    Stepped base64ToBlob w (EvClick readyState now) (Normal tt)
      (connected w) (connect_trace w)
| did_click_connect_refused readyState now c :
    gif (page w) = Some true -> client (vars w) = Some c ->
    readyState <> WebSocket_OPEN ->
    accessToken (vars w) = None ->
    Stepped base64ToBlob w (EvClick readyState now)
      (Thrown createConfig_refusal) w []
| did_data_admitted data readyState :
    chunk_admittedb w data readyState = true ->
    Stepped base64ToBlob w (EvData data readyState) (Normal tt)
      (awaiting_buffer w) [AArrayBuffer data]
| did_data_dropped data readyState :
    chunk_admittedb w data readyState = false ->
    Stepped base64ToBlob w (EvData data readyState) (Normal tt) w []
| did_buffer_rejected n e readyState :
    awaitingBuffer (page w) = S n ->
    Stepped base64ToBlob w (EvBuffer (Thrown e) readyState) (Thrown e)
      (buffer_resumed n w) []
| did_buffer_sent n b c readyState :
    awaitingBuffer (page w) = S n -> client (vars w) = Some c ->
    readyState = WebSocket_OPEN ->
    Stepped base64ToBlob w (EvBuffer (Normal b) readyState) (Normal tt)
      (buffer_resumed n w) [ASendAudio c b]
| did_buffer_refused n b c readyState :
    awaitingBuffer (page w) = S n -> client (vars w) = Some c ->
    readyState <> WebSocket_OPEN ->
    Stepped base64ToBlob w (EvBuffer (Normal b) readyState)
      (Thrown sendAudio_refusal) (buffer_resumed n w) [ASendAudio c b]
| did_buffer_no_client n b readyState :
    awaitingBuffer (page w) = S n -> client (vars w) = None ->
    Stepped base64ToBlob w (EvBuffer (Normal b) readyState) (Normal tt)
      (buffer_resumed n w) []
| did_ended_idle a :
    is_playing_now a (playing (page w)) = true ->
    audioQueue (vars w) = [] ->
    Stepped base64ToBlob w (EvEnded a) (Normal tt)
      (flag_off (ended_world a w)) []
| did_ended_next a b rest :
    is_playing_now a (playing (page w)) = true ->
    audioQueue (vars w) = b :: rest ->
    Stepped base64ToBlob w (EvEnded a) (Normal tt)
      (started b rest (flag_off (ended_world a w)))
      [ACreateObjectURL b; APlay (mkAudio (nextId (page w)) b)].

(* ------------------------------------------------------------------ *)
(** ** Vocabulary of the further properties *)

(** What a sequence of callbacks shows, event by event, each observed in
    the world it arrives in. *)
Fixpoint collect {A : Type} (base64ToBlob : string -> string -> Completion Blob)
    (observe : World -> Event -> list A) (w : World) (evs : list Event)
  : list A :=
  match evs with
  | [] => []
  | ev :: rest =>
      (observe w ev
       ++ collect base64ToBlob observe (next base64ToBlob w ev) rest)%list
  end.

(** The blobs a trace takes off the queue, in order. *)
Definition dequeued (tr : list Action) : list Blob :=
  flat_map (fun a => match a with
                     | ACreateObjectURL b => [b]
                     | _ => []
                     end) tr.

(** The blob an event brings: the decoded data of an [audio_output]. *)
Definition arrived (base64ToBlob : string -> string -> Completion Blob)
    (w : World) (ev : Event) : list Blob :=
  match ev with
  | EvMessage _ (AudioOutput d) =>
      match base64ToBlob d (mimeType (vars w)) with
      | Normal b => [b]
      | Thrown _ => []
      end
  | _ => []
  end.

(** The event, when it runs [stopAudio]. *)
Definition interruption (w : World) (ev : Event) : list Event :=
  if calls_stopAudio w ev then [ev] else [].

(** The paragraph an event adds to the chat. *)
Definition spoken (w : World) (ev : Event) : list Element :=
  match ev with
  | EvMessage now (UserMessage m) | EvMessage now (AssistantMessage m) =>
      [message_element now (role m) (content m)]
  | EvClick _ now =>
      if calls_stopAudio w ev
      then [message_element now "system" "Conversation ended."]
      else []
  | _ => []
  end.

(** The flag, the queue and the browser agree: while the flag is set one
    element plays, the one [currentAudio] names; while it is clear
    nothing plays and nothing waits. *)
Definition in_step (w : World) : Prop :=
  if isPlaying (vars w)
  then exists a, playing (page w) = [a] /\ currentAudio (vars w) = Some a
  else playing (page w) = [] /\ audioQueue (vars w) = [].

(** The recorders a trace stops, in order. *)
Definition stopped_recorders (tr : list Action) : list Recorder :=
  flat_map (fun a => match a with
                     | ARecorderStop r => [r]
                     | _ => []
                     end) tr.

(** The recorders a trace starts, in order. *)
Definition started_recorders (tr : list Action) : list Recorder :=
  flat_map (fun a => match a with
                     | ARecorderStart r _ => [r]
                     | _ => []
                     end) tr.

(** The recorder the script holds was created before now. *)
Definition recorder_known (w : World) : Prop :=
  forall r, recorder (vars w) = Some r -> (r < nextId (page w))%nat.

(** The recorders a trace creates, in order. *)
Definition created_recorders (tr : list Action) : list Recorder :=
  flat_map (fun a => match a with
                     | ANewRecorder r _ _ => [r]
                     | _ => []
                     end) tr.

(** The settlement of a capture whose stream was obtained and checked. *)
Definition is_capture (ev : Event) : bool :=
  match ev with
  | EvStream (Normal _) (Normal _) => true
  | _ => false
  end.

Definition is_open (ev : Event) : bool :=
  match ev with
  | EvOpen => true
  | _ => false
  end.

(* ------------------------------------------------------------------ *)
(** ** Sample inputs *)

Module Sample.

(** [btoa] on the two strings the samples use. *)
Definition btoa (s : string) : Completion string :=
  if String.eqb s "key:secret" then Normal "a2V5OnNlY3JldA=="
  else if String.eqb s ":" then Normal "Og=="
  else Thrown "InvalidCharacterError".

(** [base64ToBlob] on the one text the samples use. *)
Definition base64ToBlob (text mime : string) : Completion Blob :=
  if String.eqb text "aGk=" then Normal (mkBlob "hi" mime)
  else Thrown "InvalidCharacterError".

(** The page before anything ran, with both elements present. *)
Definition world0 : World :=
  {| vars := {| accessToken := None; client := None; audioStream := None;
                recorder := None; currentAudio := None; isPlaying := false;
                audioQueue := []; mimeType := "audio/webm" |};
     page := {| chat := Some []; gif := Some false; playing := [];
                maxConcurrent := 0; nextId := 0;
                awaitingStream := 0; awaitingBuffer := 0 |} |}.

Definition hi : Blob := mkBlob "hi" "audio/webm".

Definition startup : Startup :=
  {| VITE_HUME_API_KEY := Some "key";
     VITE_HUME_CLIENT_SECRET := Some "secret";
     micPromise := Normal (mkStream 7);
     fetchPromise := Normal (mkResponse 1);
     jsonPromise := Normal (JObj [("access_token", JStr "tok-1");
                                  ("expires_in", JNum "1800")]) |}.

(** The page after the start above: a client, no audio yet. *)
Definition world1 : World := world_of (main btoa startup world0).

(** The sample conversation: the socket opens, the microphone is
    captured, a chunk is recorded and sent, two audio messages and a
    user message arrive, the first audio ends, the user clicks. *)
Definition conversation : list Event :=
  [ EvOpen;
    EvStream (Normal (mkStream 7)) (Normal tt);
    EvData (mkBlob "abc" "audio/webm") 1;
    EvBuffer (Normal "abc") 1;
    EvMessage "10:00:00" (AudioOutput "aGk=");
    EvMessage "10:00:01" (AudioOutput "aGk=");
    EvMessage "10:00:02" (UserMessage (mkChatMessage "user" "hello"));
    EvEnded (mkAudio 2 hi);
    EvClick 1 "10:00:09" ].

Definition after_conversation : World * list Action :=
  match run base64ToBlob world1 conversation with
  | Some x => x
  | None => (world1, [])
  end.

End Sample.

(* ------------------------------------------------------------------ *)
(** ** More sample inputs *)

Module Scenario.

(** The sample conversation up to the click: nothing stops playback. *)
Definition talk : list Event := firstn 8 Sample.conversation.

Definition after_talk : World * list Action :=
  match run Sample.base64ToBlob Sample.world1 talk with
  | Some x => x
  | None => (Sample.world1, [])
  end.

(** A start of the page whose key [btoa] refuses. *)
Definition refused : Startup :=
  {| VITE_HUME_API_KEY := Some "clef";
     VITE_HUME_CLIENT_SECRET := Some "secret";
     micPromise := Normal (mkStream 7);
     fetchPromise := Normal (mkResponse 1);
     jsonPromise := Normal JNull |}.

(** A start of the page whose token request is answered with an error
    object. *)
Definition unauthorised : Startup :=
  {| VITE_HUME_API_KEY := Some "key";
     VITE_HUME_CLIENT_SECRET := Some "secret";
     micPromise := Thrown "NotAllowedError";
     fetchPromise := Normal (mkResponse 1);
     jsonPromise := Normal (JObj [("error", JStr "invalid_client")]) |}.

(** A first start of the page whose token request fails. *)
Definition offline : Startup :=
  {| VITE_HUME_API_KEY := Some "key";
     VITE_HUME_CLIENT_SECRET := Some "secret";
     micPromise := Normal (mkStream 7);
     fetchPromise := Thrown "TypeError: Failed to fetch";
     jsonPromise := Normal JNull |}.

End Scenario.

(* ------------------------------------------------------------------ *)
(** ** Proof tools *)

(** Unfolds the script down to the monad's primitives. *)
Ltac script :=
  cbv [bind ret await try_catch emit getv setv getp setp when_some
       fresh play pause appendChild appendMessage
       requestMicrophonePermission authenticate connect playAudio onended
       stopAudio disconnect captureAudio_call captureAudio_resume
       ondataavailable ondataavailable_resume sendAudio onOpen onMessage onClose
       onClick wireClick main].

(** Names every variable of the world. *)
Ltac open_world w :=
  destruct w as [[tok cl strm rec cur flag queue mime]
                 [ch gf pl mx nid ws wb]].

(* ------------------------------------------------------------------ *)
(** ** The model on concrete inputs *)

Example String_of_array :
  js_String (JArr [JNum "1"; JNull; JArr [JStr "a"; JBool true]; JObj []])
  = Normal "1,,a,true,[object Object]".
Proof. reflexivity. Qed.

Example String_of_shadowed_toString :
  js_String (JArr [JStr "a"; JObj [("toString", JStr "x")]; JStr "b"])
  = Thrown "TypeError: Cannot convert object to primitive value".
Proof. reflexivity. Qed.

Example access_token_of_null :
  get_property JNull "access_token"
  = Thrown "TypeError: Cannot read properties of null".
Proof. reflexivity. Qed.

Example access_token_missing :
  token_outcome (Normal (mkResponse 1))
    (Normal (JObj [("error", JStr "invalid_client")]))
  = Normal "undefined".
Proof. reflexivity. Qed.

Example access_token_unprintable :
  token_after (Some "old") (Normal (mkResponse 1))
    (Normal (JObj [("access_token", JObj [("toString", JStr "x")])]))
  = Some "old".
Proof. reflexivity. Qed.

Example form_body :
  URLSearchParams_toString [("grant_type", "client_credentials")]
  = "grant_type=client_credentials".
Proof. reflexivity. Qed.

Example form_escapes :
  URLSearchParams_toString [("a b", "c&d"); ("e", "~")] = "a+b=c%26d&e=%7E".
Proof. reflexivity. Qed.

Example startup_trace :
  trace_of (main Sample.btoa Sample.startup Sample.world0)
  = [ AGetAudioStream;
      AFetch (token_request "a2V5OnNlY3JldA==");
      AResJson (mkResponse 1);
      ACreateClient 0 (Some "tok-1");
      AOn 0 "open"; AOn 0 "message"; AOn 0 "close";
      AClientConnect 0;
      AAddClickListener ].
Proof. vm_compute. reflexivity. Qed.

Example conversation_trace :
  snd Sample.after_conversation
  = [ AConsoleLog "Web socket connection opened"; AGetAudioStream;
      ACheckForAudioTracks (mkStream 7);
      ANewRecorder 1 (mkStream 7) "audio/webm";
      ARecorderStart 1 100;
      AArrayBuffer (mkBlob "abc" "audio/webm");
      ASendAudio 0 "abc";
      ACreateObjectURL Sample.hi; APlay (mkAudio 2 Sample.hi);
      ACreateObjectURL Sample.hi; APlay (mkAudio 3 Sample.hi);
      APause (mkAudio 3 Sample.hi);
      ARecorderStop 1; AClientDisconnect 0 ].
Proof. vm_compute. reflexivity. Qed.

Example conversation_chat :
  option_map (map innerHTML) (chat (page (fst Sample.after_conversation)))
  = Some [ "<strong>[10:00:02] user:</strong> hello";
           "<strong>[10:00:09] system:</strong> Conversation ended." ].
Proof. vm_compute. reflexivity. Qed.

(** [ended] is not delivered for an element that does not play. *)
Example ended_needs_playing :
  step Sample.base64ToBlob Sample.world1 (EvEnded (mkAudio 2 Sample.hi)) = None.
Proof. vm_compute. reflexivity. Qed.

(* ------------------------------------------------------------------ *)
(** ** What each function computes *)

Lemma playAudio_eq w :
  playAudio w =
  match audioQueue (vars w), isPlaying (vars w) with
  | b :: rest, false =>
      (Normal tt, started b rest w,
       [ACreateObjectURL b; APlay (mkAudio (nextId (page w)) b)])
  | _, _ => (Normal tt, w, [])
  end.
Proof.
  open_world w. script. cbn.
  destruct queue as [|b rest]; [reflexivity|].
  destruct flag; reflexivity.
Qed.

Lemma onended_eq w :
  onended w =
  match audioQueue (vars w) with
  | b :: rest =>
      (Normal tt, started b rest (flag_off w),
       [ACreateObjectURL b; APlay (mkAudio (nextId (page w)) b)])
  | [] => (Normal tt, flag_off w, [])
  end.
Proof.
  open_world w. script. cbn.
  destruct queue as [|b rest]; reflexivity.
Qed.

Lemma stopAudio_eq w : stopAudio w = (Normal tt, stopped w, stop_trace w).
Proof.
  open_world w. script. unfold stopped, stop_trace. cbn.
  destruct cur; reflexivity.
Qed.

Lemma connect_eq w :
  connect w
  = match accessToken (vars w) with
    | Some _ => (Normal tt, connected w, connect_trace w)
    | None => (Thrown createConfig_refusal, w, [])
    end.
Proof. open_world w. destruct tok; reflexivity. Qed.

Lemma appendMessage_eq now r c w :
  appendMessage now r c w
  = (Normal tt, with_message (message_element now r c) w, []).
Proof.
  open_world w. script. unfold with_message. cbn.
  destruct ch; reflexivity.
Qed.

Lemma disconnect_eq now w :
  disconnect now w
  = (Normal tt, disconnected now w,
     (stop_trace w ++ recorder_stop_trace w
      ++ match client (vars w) with
         | Some c => [AClientDisconnect c]
         | None => []
         end)%list).
Proof.
  open_world w. script.
  unfold disconnected, with_message, stopped, stop_trace, recorder_stop_trace.
  cbn. destruct cur, rec, cl, ch; reflexivity.
Qed.

Lemma without_self a l : is_playing_now a (without a l) = false.
Proof.
  unfold is_playing_now, without.
  induction l as [|b l IH]; [reflexivity|].
  cbn [filter]. destruct (same_audio a b) eqn:E; cbn [negb]; [exact IH|].
  cbn [existsb]. rewrite E. exact IH.
Qed.

Section Properties.

Variable btoa : string -> Completion string.
Variable base64ToBlob : string -> string -> Completion Blob.

Lemma onMessage_audio_eq now d b w :
  base64ToBlob d (mimeType (vars w)) = Normal b ->
  onMessage base64ToBlob now (AudioOutput d) w =
  match audioQueue (vars w), isPlaying (vars w) with
  | [], false =>
      (Normal tt, started b [] w,
       [ACreateObjectURL b; APlay (mkAudio (nextId (page w)) b)])
  | _, _ => (Normal tt, pushed b w, [])
  end.
Proof.
  intros H. unfold onMessage. cbv [bind getv await setv ret].
  rewrite H. cbn [vars page set_audioQueue audioQueue].
  destruct (audioQueue (vars w)) as [|b0 rest] eqn:Eq.
  - cbn [List.length app Nat.leb]. rewrite playAudio_eq.
    open_world w. cbn in *. subst queue. destruct flag; reflexivity.
  - rewrite length_app. cbn [List.length Nat.add].
    rewrite Nat.add_comm. cbn [Nat.add Nat.leb].
    open_world w. cbn in *. subst queue. reflexivity.
Qed.

Lemma onMessage_audio_throw now d e w :
  base64ToBlob d (mimeType (vars w)) = Thrown e ->
  onMessage base64ToBlob now (AudioOutput d) w = (Thrown e, w, []).
Proof.
  intros H. open_world w. script. cbn in *. rewrite H. reflexivity.
Qed.

(* ------------------------------------------------------------------ *)
(** ** The message callback *)

(** C1.  A [user_message] or [assistant_message] appends one paragraph,
    made of the role and the content of the message, to the chat and
    leaves the queue alone.  An [audio_output] whose data decodes to a
    blob pushes that blob onto the queue, after which [playAudio] runs if
    the queue holds at most one blob: the blob is then either the new
    last element of the queue or, when the queue was empty and nothing
    was playing, the blob just taken for playback.  A message of any
    other type changes nothing. *)
Theorem C1_message_callback :
  (forall now message w,
      let el := message_element now (role message) (content message) in
      onMessage base64ToBlob now (UserMessage message) w
        = (Normal tt, with_message el w, [])
      /\ onMessage base64ToBlob now (AssistantMessage message) w
        = (Normal tt, with_message el w, [])
      /\ chat (page (with_message el w))
        = option_map (fun children => (children ++ [el])%list) (chat (page w))
      /\ audioQueue (vars (with_message el w)) = audioQueue (vars w)
      /\ innerHTML el
        = "<strong>[" ++ now ++ "] " ++ role message ++ ":</strong> "
          ++ content message)
  /\ (forall now d blob w,
      base64ToBlob d (mimeType (vars w)) = Normal blob ->
      onMessage base64ToBlob now (AudioOutput d) w
        = (if (List.length (audioQueue (vars (pushed blob w))) <=? 1)%nat
           then playAudio (pushed blob w)
           else (Normal tt, pushed blob w, []))
      /\ audioQueue (vars (pushed blob w)) = (audioQueue (vars w) ++ [blob])%list
      /\ chat (page (world_of (onMessage base64ToBlob now (AudioOutput d) w)))
         = chat (page w)
      /\ (world_of (onMessage base64ToBlob now (AudioOutput d) w) = pushed blob w
          \/ (audioQueue (vars w) = [] /\ isPlaying (vars w) = false
              /\ world_of (onMessage base64ToBlob now (AudioOutput d) w)
                 = started blob [] w)))
  /\ (forall now type w,
      onMessage base64ToBlob now (OtherMessage type) w = (Normal tt, w, []))
  /\ (forall now m w,
      message_type m <> "user_message" ->
      message_type m <> "assistant_message" ->
      message_type m <> "audio_output" ->
      message_type m <> "user_interruption" ->
      onMessage base64ToBlob now m w = (Normal tt, w, [])).
Proof.
  split; [|split; [|split]].
  - intros now message w el. subst el.
    cbn [onMessage]. rewrite appendMessage_eq.
    repeat split; open_world w; reflexivity.
  - intros now d blob w H. split; [|split; [|split]].
    + unfold onMessage. cbv [bind getv await setv ret]. rewrite H.
      cbn [vars page set_audioQueue audioQueue pushed].
      destruct (List.length (audioQueue (vars w) ++ [blob]) <=? 1)%nat.
      * destruct (playAudio _) as [[r0 w0] t0]. reflexivity.
      * reflexivity.
    + reflexivity.
    + rewrite (onMessage_audio_eq now d blob w H).
      destruct (audioQueue (vars w)); [destruct (isPlaying (vars w))|];
        reflexivity.
    + rewrite (onMessage_audio_eq now d blob w H).
      destruct (audioQueue (vars w)); [destruct (isPlaying (vars w))|];
        cbn [world_of fst snd]; auto.
  - intros now type w. reflexivity.
  - intros now m w H1 H2 H3 H4.
    destruct m; cbn [message_type] in *; try congruence. reflexivity.
Qed.

(* ------------------------------------------------------------------ *)
(** ** Errors of the two start-up requests *)

(** C4.  When [getAudioStream()] rejects, [requestMicrophonePermission]
    logs the error and returns normally, having called it once.  When
    [fetch] or [res.json()] rejects, [authenticate] logs the error and
    returns normally, having called [fetch] once.  In both cases no
    variable changes. *)
Theorem C4_request_errors_are_logged :
  (forall e w,
      requestMicrophonePermission (Thrown e) w
      = (Normal tt, w,
         [AGetAudioStream;
          AConsoleError "Failed to get microphone permission:" e]))
  /\ (forall key secret encoded e parsed w,
      btoa (or_empty key ++ ":" ++ or_empty secret) = Normal encoded ->
      authenticate btoa key secret (Thrown e) parsed w
      = (Normal tt, w,
         [AFetch (token_request encoded);
          AConsoleError "Failed to authenticate:" e]))
  /\ (forall key secret encoded res e w,
      btoa (or_empty key ++ ":" ++ or_empty secret) = Normal encoded ->
      authenticate btoa key secret (Normal res) (Thrown e) w
      = (Normal tt, w,
         [AFetch (token_request encoded); AResJson res;
          AConsoleError "Failed to authenticate:" e])).
Proof.
  split; [|split].
  - intros e w. reflexivity.
  - intros key secret encoded e parsed w H. script. rewrite H. reflexivity.
  - intros key secret encoded res e w H. script. rewrite H. reflexivity.
Qed.

(* ------------------------------------------------------------------ *)
(** ** The token request *)

(** C7.  When no error is raised, that is when [btoa], [fetch],
    [res.json()], the read of [access_token] and [String] of it all
    succeed, [authenticate] makes one request, a POST to the token
    endpoint with the header [Authorization: Basic] followed by [btoa] of
    the key, a colon and the secret (each the empty string when its
    variable is unset) and with the body [grant_type=client_credentials],
    logs nothing, and stores the text [String] gives for the
    [access_token] member of the parsed answer. *)
Theorem C7_authenticate_stores_token :
  forall key secret encoded res data token text w,
    btoa (or_empty key ++ ":" ++ or_empty secret) = Normal encoded ->
    get_property data "access_token" = Normal token ->
    js_String token = Normal text ->
    authenticate btoa key secret (Normal res) (Normal data) w
    = (Normal tt,
       mkWorld (set_accessToken (Some text) (vars w)) (page w),
       [AFetch (token_request encoded); AResJson res])
    /\ url (token_request encoded) = "https://api.hume.ai/oauth2-cc/token"
    /\ method (token_request encoded) = "POST"
    /\ In ("Authorization", "Basic " ++ encoded) (headers (token_request encoded))
    /\ body (token_request encoded) = "grant_type=client_credentials"
    /\ or_empty None = "".
Proof.
  intros key secret encoded res data token text w Hb Hp Hs.
  split; [|repeat split].
  - script. rewrite Hb. cbn. rewrite Hp. cbn. rewrite Hs. reflexivity.
  - cbn. auto.
Qed.

(* ------------------------------------------------------------------ *)
(** ** Stopping playback *)

(** C10.  [stopAudio] pauses the element [currentAudio] names, if there
    is one, after which the browser no longer plays it, and leaves
    [currentAudio] null, the flag false and the queue empty.  A
    [user_interruption] message runs exactly [stopAudio], and
    [disconnect] begins with it and keeps those three values. *)
Theorem C10_stopAudio_clears_playback :
  (forall w,
      stopAudio w = (Normal tt, stopped w, stop_trace w)
      /\ currentAudio (vars (stopped w)) = None
      /\ isPlaying (vars (stopped w)) = false
      /\ audioQueue (vars (stopped w)) = [])
  /\ (forall w a,
      currentAudio (vars w) = Some a ->
      stop_trace w = [APause a]
      /\ is_playing_now a (playing (page (stopped w))) = false)
  /\ (forall now w,
      onMessage base64ToBlob now UserInterruption w = stopAudio w)
  /\ (forall now w,
      exists rest,
        disconnect now w
        = (Normal tt, disconnected now w, (stop_trace w ++ rest)%list)
        /\ audio_state (disconnected now w) = audio_state (stopped w)
        /\ currentAudio (vars (disconnected now w)) = None
        /\ isPlaying (vars (disconnected now w)) = false
        /\ audioQueue (vars (disconnected now w)) = []).
Proof.
  split; [|split; [|split]].
  - intros w. rewrite stopAudio_eq. repeat split.
  - intros w a H. unfold stop_trace, stopped. rewrite H. split; [reflexivity|].
    cbn. apply without_self.
  - intros now w. reflexivity.
  - intros now w. rewrite disconnect_eq. eexists. split; [reflexivity|].
    open_world w. cbn. destruct ch; repeat split.
Qed.

(* ------------------------------------------------------------------ *)
(** ** The click listener *)

(** C5.  A click with no client does nothing.  A click while the client
    reads [WebSocket.OPEN] runs [disconnect]: playback is stopped, the
    recorder (if any) is stopped, the client is disconnected.  A click
    while the client reads anything else runs [connect], which creates
    and connects a new client with the stored token (and throws, changing
    nothing, were no token ever stored). *)
Theorem C5_click_toggles_connection :
  (forall readyState now w,
      client (vars w) = None ->
      onClick readyState now w = (Normal tt, w, []))
  /\ (forall readyState now w c,
      client (vars w) = Some c ->
      readyState = WebSocket_OPEN ->
      onClick readyState now w = disconnect now w
      /\ disconnect now w
         = (Normal tt, disconnected now w,
            (stop_trace w ++ recorder_stop_trace w ++ [AClientDisconnect c])%list)
      /\ recorder (vars (disconnected now w)) = None
      /\ isPlaying (vars (disconnected now w)) = false
      /\ audioQueue (vars (disconnected now w)) = [])
  /\ (forall readyState now w c,
      client (vars w) = Some c ->
      readyState <> WebSocket_OPEN ->
      onClick readyState now w = connect w
      /\ (forall token,
             accessToken (vars w) = Some token ->
             connect w = (Normal tt, connected w, connect_trace w))
      /\ (accessToken (vars w) = None ->
          connect w = (Thrown createConfig_refusal, w, []))
      /\ In (AClientConnect (nextId (page w))) (connect_trace w)).
Proof.
  split; [|split].
  - intros readyState now w H. unfold onClick. cbv [bind getv].
    rewrite H. reflexivity.
  - intros readyState now w c H Hr. split; [|split].
    + unfold onClick. cbv [bind getv]. rewrite H.
      apply Z.eqb_eq in Hr. rewrite Hr.
      destruct (disconnect now w) as [[r0 w0] t0]. reflexivity.
    + rewrite disconnect_eq, H. reflexivity.
    + open_world w. cbn. destruct ch; repeat split.
  - intros readyState now w c H Hr. split; [|split; [|split]].
    + unfold onClick. cbv [bind getv]. rewrite H.
      apply Z.eqb_neq in Hr. rewrite Hr.
      destruct (connect w) as [[r0 w0] t0]. reflexivity.
    + intros token Ht. now rewrite connect_eq, Ht.
    + intros Ht. now rewrite connect_eq, Ht.
    + cbn. auto 6.
Qed.

(* ------------------------------------------------------------------ *)
(** ** The start of the page *)

Lemma requestMicrophonePermission_normal mic w :
  exists t,
    requestMicrophonePermission mic w = (Normal tt, w, t)
    /\ stages t = [Microphone].
Proof.
  destruct mic as [s|e]; eexists; split; reflexivity.
Qed.

Lemma token_log_stages fetched parsed : stages (token_log fetched parsed) = [].
Proof.
  unfold token_log.
  destruct fetched, (token_outcome _ parsed); reflexivity.
Qed.

(** [authenticate] in closed form, once [btoa] has succeeded. *)
Lemma authenticate_eq key secret encoded fetched parsed w :
  btoa (or_empty key ++ ":" ++ or_empty secret) = Normal encoded ->
  authenticate btoa key secret fetched parsed w
  = (Normal tt,
     mkWorld (set_accessToken
                (token_after (accessToken (vars w)) fetched parsed) (vars w))
             (page w),
     AFetch (token_request encoded) :: token_log fetched parsed).
Proof.
  intros H. script. rewrite H. unfold token_after, token_log, token_outcome.
  cbn. destruct fetched as [res|e]; cbn.
  - destruct parsed as [data|e]; cbn.
    + destruct (get_property data "access_token") as [token|e]; cbn.
      * destruct (js_String token) as [text|e]; cbn;
          open_world w; reflexivity.
      * open_world w; reflexivity.
    + open_world w; reflexivity.
  - open_world w; reflexivity.
Qed.


Lemma authenticate_throw key secret e fetched parsed w :
  btoa (or_empty key ++ ":" ++ or_empty secret) = Thrown e ->
  authenticate btoa key secret fetched parsed w = (Thrown e, w, []).
Proof. intros H. script. rewrite H. reflexivity. Qed.

Lemma wireClick_normal w :
  exists w' t,
    wireClick w = (Normal tt, w', t)
    /\ stages t = match gif (page w) with Some _ => [Wiring] | None => [] end.
Proof.
  unfold wireClick. cbv [bind getp when_some emit setp ret].
  destruct (gif (page w)); do 2 eexists; split; reflexivity.
Qed.





(* ------------------------------------------------------------------ *)
(** ** What a callback does to playback *)

Lemma step_effect w ev r w' tr :
  step base64ToBlob w ev = Some (r, w', tr) -> Effect w ev w' tr.
Proof.
  intros Hs. destruct ev; cbn [step] in Hs.
  - inversion Hs; subst; clear Hs. apply eff_neutral; reflexivity.
  - destruct (awaitingStream (page w)) eqn:E; [discriminate|].
    inversion Hs as [Hs']; clear Hs. revert Hs'. script.
    destruct stream; [destruct checked|]; cbn; intros Hs; inversion Hs; subst;
      apply eff_neutral; reflexivity.
  - destruct m.
    + inversion Hs as [Hs']; clear Hs. rewrite appendMessage_eq in Hs'.
      inversion Hs'; subst. apply eff_neutral; reflexivity.
    + inversion Hs as [Hs']; clear Hs. rewrite appendMessage_eq in Hs'.
      inversion Hs'; subst. apply eff_neutral; reflexivity.
    + inversion Hs as [Hs']; clear Hs.
      change (onMessage base64ToBlob now (AudioOutput data) w = (r, w', tr))
        in Hs'.
      destruct (base64ToBlob data (mimeType (vars w))) as [b|e] eqn:Hb.
      * rewrite (onMessage_audio_eq now _ _ _ Hb) in Hs'.
        destruct (audioQueue (vars w)) as [|b0 rest] eqn:Eq.
        -- destruct (isPlaying (vars w)) eqn:Ef; inversion Hs'; subst.
           ++ apply (eff_push _ _ _ _ b); auto.
           ++ apply (eff_push_start _ _ _ _ b); auto.
        -- inversion Hs'; subst. apply (eff_push _ _ _ _ b); auto.
           left. rewrite Eq. discriminate.
      * rewrite (onMessage_audio_throw now _ _ _ Hb) in Hs'.
        inversion Hs'; subst. apply eff_neutral; reflexivity.
    + inversion Hs as [Hs']; clear Hs. cbn [onMessage] in Hs'.
      rewrite stopAudio_eq in Hs'. inversion Hs'; subst.
      apply eff_stop; try reflexivity;
        unfold stop_trace; destruct (currentAudio (vars w)); reflexivity.
    + inversion Hs; subst. apply eff_neutral; reflexivity.
  - inversion Hs; subst. apply eff_neutral; reflexivity.
  - destruct (gif (page w)) as [[|]|] eqn:Eg;
      try (inversion Hs; subst; apply eff_neutral; cbn;
           try rewrite Eg; reflexivity).
    inversion Hs as [Hs']; clear Hs. unfold onClick in Hs'.
    cbv [bind getv] in Hs'.
    destruct (client (vars w)) as [c|] eqn:Ec.
    + destruct (readyState =? WebSocket_OPEN)%Z eqn:Er.
      * rewrite disconnect_eq in Hs'. inversion Hs'; subst.
        apply eff_stop; cbn [calls_stopAudio]; try rewrite Eg, Ec; auto;
          open_world w; cbn in *; destruct ch, cur, rec, cl; reflexivity.
      * rewrite connect_eq in Hs'.
        destruct (accessToken (vars w)); inversion Hs'; subst;
          apply eff_neutral; cbn; try rewrite Eg, Ec; auto.
    + inversion Hs'; subst. apply eff_neutral; cbn; try rewrite Eg, Ec; auto.
  - inversion Hs as [Hs']; clear Hs. revert Hs'. script.
    destruct ((0 <? size data)%Z && _); cbn; intros Hs; inversion Hs; subst;
      apply eff_neutral; reflexivity.
  - destruct (awaitingBuffer (page w)) eqn:E; [discriminate|].
    inversion Hs as [Hs']; clear Hs. revert Hs'. script.
    destruct buffer; cbn;
      [destruct (client (vars w));
       [destruct (readyState =? WebSocket_OPEN)%Z|]|]; cbn;
      intros Hs; inversion Hs; subst; apply eff_neutral; reflexivity.
  - destruct (is_playing_now a (playing (page w))) eqn:Ep; [|discriminate].
    inversion Hs as [Hs']; clear Hs.
    apply (eff_ended _ _ _ _ a); auto.
    cbv [bind setp] in Hs'. fold (ended_world a w) in Hs'.
    rewrite onended_eq in *.
    destruct (audioQueue (vars (ended_world a w))); cbn in Hs';
      inversion Hs'; subst; reflexivity.
Qed.

Lemma audio_state_inv w w' :
  audio_state w' = audio_state w ->
  audioQueue (vars w') = audioQueue (vars w)
  /\ isPlaying (vars w') = isPlaying (vars w)
  /\ currentAudio (vars w') = currentAudio (vars w)
  /\ playing (page w') = playing (page w)
  /\ maxConcurrent (page w') = maxConcurrent (page w).
Proof.
  unfold audio_state. intros H. inversion H. auto.
Qed.

Lemma playback_ok_audio_state w w' :
  audio_state w' = audio_state w -> playback_ok w -> playback_ok w'.
Proof.
  unfold audio_state, playback_ok. intros H. inversion H as [[Hq Hf Hc Hp Hm]].
  rewrite Hf, Hc, Hp, Hm. auto.
Qed.

Lemma playback_ok_started b rest w :
  playback_ok w -> isPlaying (vars w) = false -> playback_ok (started b rest w).
Proof.
  intros [[Hp | (a & Hp & _ & Hf)] Hm] Hflag; [|congruence].
  split.
  - right. exists (mkAudio (nextId (page w)) b). cbn. rewrite Hp. auto.
  - cbn. rewrite Hp. cbn. lia.
Qed.

Lemma playback_ok_stopped w : playback_ok w -> playback_ok (stopped w).
Proof.
  intros [[Hp | (a & Hp & Hc & Hf)] Hm]; split.
  - left. unfold stopped. cbn. destruct (currentAudio (vars w)); cbn;
      rewrite Hp; reflexivity.
  - unfold stopped. cbn. destruct (currentAudio (vars w)); cbn;
      try rewrite Hp; cbn; lia.
  - left. unfold stopped. rewrite Hc. cbn. rewrite Hp. cbn.
    unfold same_audio. rewrite Nat.eqb_refl. reflexivity.
  - unfold stopped. rewrite Hc. cbn. rewrite Hp. cbn.
    unfold same_audio. rewrite Nat.eqb_refl. cbn. lia.
Qed.

Lemma playback_ok_ended a w :
  playback_ok w -> is_playing_now a (playing (page w)) = true ->
  playback_ok (flag_off (ended_world a w))
  /\ playing (page (ended_world a w)) = []
  /\ exists a', currentAudio (vars w) = Some a' /\ same_audio a a' = true.
Proof.
  intros [[Hp | (a' & Hp & Hc & Hf)] Hm] Hin.
  - rewrite Hp in Hin. discriminate.
  - rewrite Hp in Hin. cbn in Hin. rewrite orb_false_r in Hin.
    assert (E : without a (playing (page w)) = []).
    { rewrite Hp. cbn. rewrite Hin. reflexivity. }
    split; [|split].
    + split; cbn; rewrite E; [now left | cbn; lia].
    + cbn. exact E.
    + exists a'. auto.
Qed.

Lemma effect_playback_ok w ev w' tr :
  Effect w ev w' tr -> playback_ok w -> playback_ok w'.
Proof.
  intros [Ha _ _ _ _ | b _ _ Ha _ | b _ Hq Hf Ha _ | _ Ha _ _ | a _ Hin Ho] Hok.
  - exact (playback_ok_audio_state _ _ Ha Hok).
  - apply (playback_ok_audio_state _ _ Ha).
    revert Hok. unfold playback_ok, pushed. cbn. auto.
  - apply (playback_ok_audio_state _ _ Ha).
    now apply playback_ok_started.
  - apply (playback_ok_audio_state _ _ Ha). now apply playback_ok_stopped.
  - destruct (playback_ok_ended a w Hok Hin) as (Hok' & _ & _).
    rewrite onended_eq in Ho.
    destruct (audioQueue (vars (ended_world a w))); inversion Ho; subst.
    + exact Hok'.
    + now apply playback_ok_started.
Qed.

Lemma run_playback_ok evs : forall w w' tr,
  run base64ToBlob w evs = Some (w', tr) -> playback_ok w -> playback_ok w'.
Proof.
  induction evs as [|ev evs IH]; intros w w' tr Hr Hok; cbn [run] in Hr.
  - inversion Hr; subst. exact Hok.
  - destruct (step base64ToBlob w ev) as [[[r w1] t1]|] eqn:Hs; [|discriminate].
    destruct (run base64ToBlob w1 evs) as [[w2 t2]|] eqn:Hr2; [|discriminate].
    inversion Hr; subst.
    apply (IH _ _ _ Hr2).
    apply (effect_playback_ok _ _ _ _ (step_effect _ _ _ _ _ Hs) Hok).
Qed.

(* ------------------------------------------------------------------ *)
(** ** One audio at a time *)

Lemma plays_none a tr : plays tr = 0%nat -> ~ In (APlay a) tr.
Proof.
  unfold plays. intros H Hin.
  assert (Hf : In (APlay a) (filter is_play tr)).
  { apply filter_In. split; [exact Hin | reflexivity]. }
  destruct (filter is_play tr); [exact Hf | discriminate].
Qed.

(** C8.  [playAudio] does nothing while the flag is set.  When it does
    start an element the flag was clear, the element is made for the head
    of the queue, and [play] is called in a world where the flag is
    already set.  A callback after which a set flag is clear is the
    [onended] callback or one that runs [stopAudio].  Hence, from a world
    whose playback is in order: a callback that starts an element leaves
    it the only one playing, and it is either the [onended] callback of
    the element that played before or runs while nothing plays; and
    along every sequence of callbacks the browser plays at most one
    element at any time. *)
Theorem C8_one_audio_at_a_time :
  (forall w, isPlaying (vars w) = true -> playAudio w = (Normal tt, w, []))
  /\ (forall w,
      trace_of (playAudio w) <> [] ->
      isPlaying (vars w) = false
      /\ exists b rest,
          audioQueue (vars w) = b :: rest
          /\ playAudio w
             = (Normal tt, started b rest w,
                [ACreateObjectURL b; APlay (mkAudio (nextId (page w)) b)])
          /\ isPlaying (vars (about_to_play b rest w)) = true
          /\ play (mkAudio (nextId (page w)) b) (about_to_play b rest w)
             = (Normal tt, started b rest w,
                [APlay (mkAudio (nextId (page w)) b)])
          /\ isPlaying (vars (started b rest w)) = true)
  /\ (forall w ev r w' tr,
      step base64ToBlob w ev = Some (r, w', tr) ->
      isPlaying (vars w) = true ->
      isPlaying (vars w') = false ->
      is_ended ev = true \/ calls_stopAudio w ev = true)
  /\ (forall w ev r w' tr a,
      playback_ok w ->
      step base64ToBlob w ev = Some (r, w', tr) ->
      In (APlay a) tr ->
      playing (page w') = [a]
      /\ (playing (page w) = []
          \/ exists a0, ev = EvEnded a0 /\ playing (page (ended_world a0 w)) = []))
  /\ (forall w evs w' tr,
      playback_ok w ->
      run base64ToBlob w evs = Some (w', tr) ->
      (List.length (playing (page w')) <= 1)%nat
      /\ (maxConcurrent (page w') <= 1)%nat).
Proof.
  split; [|split; [|split; [|split]]].
  - intros w H. rewrite playAudio_eq, H.
    destruct (audioQueue (vars w)); reflexivity.
  - intros w H. rewrite playAudio_eq in *.
    destruct (audioQueue (vars w)) as [|b rest] eqn:Eq;
      [exfalso; apply H; reflexivity|].
    destruct (isPlaying (vars w)) eqn:Ef; [exfalso; apply H; reflexivity|].
    split; [reflexivity|].
    exists b, rest. repeat split.
  - intros w ev r w' tr Hs Hon Hoff.
    destruct (step_effect _ _ _ _ _ Hs)
      as [Ha _ _ _ _ | b _ _ Ha _ | b _ _ Hf _ _ | Hc _ _ _ | a He _ _].
    + inversion Ha. congruence.
    + inversion Ha. congruence.
    + congruence.
    + now right.
    + subst ev. now left.
  - intros w ev r w' tr a Hok Hs Hin.
    destruct (step_effect _ _ _ _ _ Hs)
      as [_ _ Hp _ _ | b _ _ _ Ht | b _ Hq Hf Ha Ht | _ _ _ Hp | a0 He Hp Hon].
    + exfalso. exact (plays_none _ _ Hp Hin).
    + subst tr. destruct Hin.
    + assert (Hnone : playing (page w) = []).
      { destruct Hok as [[H | (a1 & _ & _ & H)] _]; [exact H | congruence]. }
      subst tr. destruct Hin as [H | [H | []]]; [discriminate|].
      inversion H; subst a.
      apply audio_state_inv in Ha as (_ & _ & _ & Hpl & _).
      rewrite Hpl. cbn. rewrite Hnone. auto.
    + exfalso. exact (plays_none _ _ Hp Hin).
    + destruct (playback_ok_ended a0 w Hok Hp) as (_ & Hnone & _).
      rewrite onended_eq in Hon.
      destruct (audioQueue (vars (ended_world a0 w))) as [|b rest];
        inversion Hon; subst; [destruct Hin|].
      destruct Hin as [H | [H | []]]; [discriminate|].
      inversion H; subst a. split.
      * cbn in *. rewrite Hnone. reflexivity.
      * right. exists a0. auto.
  - intros w evs w' tr Hok Hr.
    destruct (run_playback_ok _ _ _ _ Hr Hok) as [[Hp | (a & Hp & _)] Hm];
      rewrite Hp; cbn; split; auto.
Qed.

(* ------------------------------------------------------------------ *)
(** ** Who takes blobs off the queue *)

(** C3, as the code has it.  A callback takes at most one blob off the
    queue for playback.  While the flag is set, the callback that does so
    is [onended]; under the playback invariant the element that ended is
    the one [currentAudio] names.  While the flag is clear, the
    [audio_output] callback itself takes the blob it has just pushed onto
    an empty queue.  Apart from that a callback leaves the queue as it
    is, appends one blob to it, or, running [stopAudio], empties it.
    And these callbacks do take the blob: an [audio_output] that arrives
    while the flag is clear and the queue is empty is started at once and
    leaves the queue empty, one that arrives while the flag is set is
    only appended; [onended] with a blob waiting starts the head of the
    queue and leaves its tail, and with none waiting only clears the
    flag; an interruption empties the queue and starts nothing. *)
Theorem C3_queue_drained_one_at_a_time :
  (forall w ev r w' tr,
     step base64ToBlob w ev = Some (r, w', tr) ->
     (dequeues tr <= 1)%nat
     /\ (dequeues tr = 1%nat -> isPlaying (vars w) = true -> is_ended ev = true)
     /\ (dequeues tr = 1%nat ->
         is_ended ev = true
         \/ (is_audio_output ev = true
             /\ isPlaying (vars w) = false
             /\ audioQueue (vars w) = []))
     /\ (audioQueue (vars w') = audioQueue (vars w)
         \/ (exists b, audioQueue (vars w') = (audioQueue (vars w) ++ [b])%list)
         \/ (exists b, audioQueue (vars w) = b :: audioQueue (vars w')
                       /\ is_ended ev = true
                       /\ dequeues tr = 1%nat)
         \/ (audioQueue (vars w') = [] /\ calls_stopAudio w ev = true))
     /\ (playback_ok w ->
         forall a, ev = EvEnded a ->
                   exists a', currentAudio (vars w) = Some a'
                              /\ same_audio a a' = true))
  /\ (forall now d b w,
      base64ToBlob d (mimeType (vars w)) = Normal b ->
      audioQueue (vars w) = [] ->
      isPlaying (vars w) = false ->
      step base64ToBlob w (EvMessage now (AudioOutput d))
      = Some (Normal tt, started b [] w,
              [ACreateObjectURL b; APlay (mkAudio (nextId (page w)) b)])
      /\ dequeues [ACreateObjectURL b; APlay (mkAudio (nextId (page w)) b)]
         = 1%nat
      /\ audioQueue (vars (started b [] w)) = []
      /\ currentAudio (vars (started b [] w))
         = Some (mkAudio (nextId (page w)) b))
  /\ (forall now d b w,
      base64ToBlob d (mimeType (vars w)) = Normal b ->
      isPlaying (vars w) = true ->
      step base64ToBlob w (EvMessage now (AudioOutput d))
      = Some (Normal tt, pushed b w, [])
      /\ audioQueue (vars (pushed b w)) = (audioQueue (vars w) ++ [b])%list)
  /\ (forall a b rest w,
      is_playing_now a (playing (page w)) = true ->
      audioQueue (vars w) = b :: rest ->
      step base64ToBlob w (EvEnded a)
      = Some (Normal tt, started b rest (flag_off (ended_world a w)),
              [ACreateObjectURL b; APlay (mkAudio (nextId (page w)) b)])
      /\ audioQueue (vars (started b rest (flag_off (ended_world a w)))) = rest
      /\ currentAudio (vars (started b rest (flag_off (ended_world a w))))
         = Some (mkAudio (nextId (page w)) b))
  /\ (forall a w,
      is_playing_now a (playing (page w)) = true ->
      audioQueue (vars w) = [] ->
      step base64ToBlob w (EvEnded a)
      = Some (Normal tt, flag_off (ended_world a w), []))
  /\ (forall now w,
      step base64ToBlob w (EvMessage now UserInterruption)
      = Some (Normal tt, stopped w, stop_trace w)
      /\ audioQueue (vars (stopped w)) = []
      /\ dequeues (stop_trace w) = 0%nat).
Proof.
  split.
  {
  intros w ev r w' tr Hs.
  destruct (step_effect _ _ _ _ _ Hs)
    as [Ha Hd _ He Hc | b Ho Hb Ha Ht | b Ho Hq Hf Ha Ht | Hc Ha Hd _ | a He Hin Hon];
    (split; [|split; [|split; [|split]]]).
  (* nothing happens to playback *)
  - rewrite Hd. lia.
  - rewrite Hd. discriminate.
  - rewrite Hd. discriminate.
  - apply audio_state_inv in Ha as (Hq & _). left. exact Hq.
  - intros _ a E. subst ev. discriminate.
  (* a push *)
  - subst tr. cbn. lia.
  - subst tr. discriminate.
  - subst tr. discriminate.
  - apply audio_state_inv in Ha as (Hq & _). right. left. exists b. exact Hq.
  - intros _ a E. subst ev. discriminate.
  (* a push onto the empty queue of an idle player *)
  - subst tr. cbn. lia.
  - intros _ H. congruence.
  - intros _. right. auto.
  - apply audio_state_inv in Ha as (Hq' & _). left. cbn in Hq'. congruence.
  - intros _ a E. subst ev. discriminate.
  (* a stop *)
  - rewrite Hd. lia.
  - rewrite Hd. discriminate.
  - rewrite Hd. discriminate.
  - apply audio_state_inv in Ha as (Hq & _). right. right. right.
    split; [exact Hq | exact Hc].
  - intros _ a E. subst ev. discriminate.
  (* the end of an element *)
  - rewrite onended_eq in Hon.
    destruct (audioQueue (vars (ended_world a w))); inversion Hon; cbn; lia.
  - subst ev. reflexivity.
  - subst ev. now left.
  - subst ev. rewrite onended_eq in Hon.
    destruct (audioQueue (vars (ended_world a w))) as [|b rest] eqn:Eq;
      inversion Hon; subst.
    + left. reflexivity.
    + right. right. left. exists b. cbn in *. auto.
  - intros Hok a0 E. subst ev. inversion E; subst a0.
    destruct (playback_ok_ended a w Hok Hin) as (_ & _ & H). exact H.
  }
  split; [|split; [|split; [|split]]].
  - intros now d b w Hb Hq Hf. split; [|repeat split].
    cbn [step]. rewrite (onMessage_audio_eq now d b w Hb).
    now rewrite Hq, Hf.
  - intros now d b w Hb Hf. split; [|reflexivity].
    cbn [step]. rewrite (onMessage_audio_eq now d b w Hb).
    rewrite Hf. now destruct (audioQueue (vars w)).
  - intros a b rest w Hin Hq. split; [|split; reflexivity].
    cbn [step]. rewrite Hin. cbv [bind setp].
    fold (ended_world a w). rewrite onended_eq.
    change (audioQueue (vars (ended_world a w))) with (audioQueue (vars w)).
    rewrite Hq. reflexivity.
  - intros a w Hin Hq.
    cbn [step]. rewrite Hin. cbv [bind setp].
    fold (ended_world a w). rewrite onended_eq.
    change (audioQueue (vars (ended_world a w))) with (audioQueue (vars w)).
    rewrite Hq. reflexivity.
  - intros now w. split; [|split].
    + cbn [step onMessage]. now rewrite stopAudio_eq.
    + reflexivity.
    + unfold stop_trace. now destruct (currentAudio (vars w)).
Qed.

(* ------------------------------------------------------------------ *)
(** ** Sending recorded audio *)

Lemma chunk_admitted_iff w data readyState :
  chunk_admittedb w data readyState = true <-> chunk_admitted w data readyState.
Proof.
  unfold chunk_admittedb, chunk_admitted. rewrite andb_true_iff, Z.ltb_lt.
  destruct (client (vars w)) as [c|].
  - rewrite Z.eqb_eq. split.
    + intros [H1 H2]. split; [exact H1|]. split; [now exists c | exact H2].
    + intros (H1 & _ & H2). auto.
  - split.
    + intros [_ H]. discriminate.
    + intros (_ & [c H] & _). discriminate.
Qed.

Lemma ondataavailable_eq data readyState w :
  ondataavailable data readyState w
  = if chunk_admittedb w data readyState
    then (Normal tt, awaiting_buffer w, [AArrayBuffer data])
    else (Normal tt, w, []).
Proof.
  unfold ondataavailable, chunk_admittedb. cbv [bind getv].
  destruct ((0 <? size data)%Z && _); reflexivity.
Qed.

Lemma sends_app t u : sends (t ++ u) = (sends t + sends u)%nat.
Proof. unfold sends. now rewrite filter_app, length_app. Qed.

(** What a callback does to the suspended recorder callbacks and how
    many buffers it sends. *)
Lemma step_buffer w ev r w' tr :
  step base64ToBlob w ev = Some (r, w', tr) ->
  match ev with
  | EvData data readyState =>
      sends tr = 0%nat
      /\ awaitingBuffer (page w')
         = if chunk_admittedb w data readyState
           then S (awaitingBuffer (page w))
           else awaitingBuffer (page w)
  | EvBuffer buffer _ =>
      awaitingBuffer (page w) = S (awaitingBuffer (page w'))
      /\ (sends tr <= 1)%nat
      /\ (sends tr = 1%nat -> exists b, buffer = Normal b)
  | _ =>
      sends tr = 0%nat /\ awaitingBuffer (page w') = awaitingBuffer (page w)
  end.
Proof.
  intros Hs. destruct ev; cbn [step] in Hs.
  - inversion Hs; subst. split; reflexivity.
  - destruct (awaitingStream (page w)) eqn:E; [discriminate|].
    inversion Hs as [Hs']; clear Hs. revert Hs'. script.
    destruct stream; [destruct checked|]; cbn; intros Hs; inversion Hs; subst;
      split; reflexivity.
  - inversion Hs as [Hs']; clear Hs. destruct m.
    + cbn [onMessage] in Hs'. rewrite appendMessage_eq in Hs'.
      inversion Hs'; subst. split; reflexivity.
    + cbn [onMessage] in Hs'. rewrite appendMessage_eq in Hs'.
      inversion Hs'; subst. split; reflexivity.
    + change (onMessage base64ToBlob now (AudioOutput data) w = (r, w', tr))
        in Hs'.
      destruct (base64ToBlob data (mimeType (vars w))) as [b|e] eqn:Hb.
      * rewrite (onMessage_audio_eq now _ _ _ Hb) in Hs'.
        destruct (audioQueue (vars w)); [destruct (isPlaying (vars w))|];
          inversion Hs'; subst; split; reflexivity.
      * rewrite (onMessage_audio_throw now _ _ _ Hb) in Hs'.
        inversion Hs'; subst. split; reflexivity.
    + cbn [onMessage] in Hs'. rewrite stopAudio_eq in Hs'.
      inversion Hs'; subst. unfold stop_trace, stopped.
      destruct (currentAudio (vars w)); split; reflexivity.
    + inversion Hs'; subst. split; reflexivity.
  - inversion Hs; subst. split; reflexivity.
  - destruct (gif (page w)) as [[|]|];
      try (inversion Hs; subst; split; reflexivity).
    inversion Hs as [Hs']; clear Hs. unfold onClick in Hs'.
    cbv [bind getv] in Hs'.
    destruct (client (vars w)) as [c|] eqn:Ec.
    + destruct (readyState =? WebSocket_OPEN)%Z.
      * rewrite disconnect_eq in Hs'. inversion Hs'; subst.
        open_world w. cbn in *. destruct ch, cur, rec, cl; split; reflexivity.
      * rewrite connect_eq in Hs'.
        destruct (accessToken (vars w)); inversion Hs'; subst;
          split; reflexivity.
    + inversion Hs'; subst. split; reflexivity.
  - inversion Hs as [Hs']; clear Hs. rewrite ondataavailable_eq in Hs'.
    destruct (chunk_admittedb w data readyState); inversion Hs'; subst;
      split; reflexivity.
  - destruct (awaitingBuffer (page w)) eqn:E; [discriminate|].
    inversion Hs as [Hs']; clear Hs. revert Hs'. script.
    destruct buffer as [b|e]; cbn;
      [destruct (client (vars w));
       [destruct (readyState =? WebSocket_OPEN)%Z|]|]; cbn;
      intros Hs; inversion Hs; subst; cbn;
      (split; [reflexivity | split; [lia|]]);
      try discriminate; intros _; now exists b.
  - destruct (is_playing_now a (playing (page w))); [|discriminate].
    inversion Hs as [Hs']; clear Hs.
    cbv [bind setp] in Hs'. fold (ended_world a w) in Hs'.
    rewrite onended_eq in Hs'.
    destruct (audioQueue (vars (ended_world a w))); cbn in Hs';
      inversion Hs'; subst; split; reflexivity.
Qed.

(** C9.  The recorder callback itself never sends: it goes on to its
    [await], and so to [sendAudio], exactly when the chunk is not empty
    and the client reads [WebSocket.OPEN]; otherwise it does nothing.  A
    callback that sends is the continuation of a suspended recorder
    callback, and along every sequence of callbacks the buffers sent and
    the callbacks still suspended are at most the chunks that passed the
    test plus the callbacks suspended at the start. *)
Theorem C9_send_needs_admitted_chunk :
  (forall data readyState w,
      sends (trace_of (ondataavailable data readyState w)) = 0%nat)
  /\ (forall data readyState w,
      chunk_admitted w data readyState ->
      ondataavailable data readyState w
      = (Normal tt, awaiting_buffer w, [AArrayBuffer data]))
  /\ (forall data readyState w,
      ~ chunk_admitted w data readyState ->
      ondataavailable data readyState w = (Normal tt, w, []))
  /\ (forall w ev r w' tr,
      step base64ToBlob w ev = Some (r, w', tr) ->
      sends tr <> 0%nat ->
      (exists b readyState, ev = EvBuffer (Normal b) readyState)
      /\ (0 < awaitingBuffer (page w))%nat)
  /\ (forall evs w w' tr,
      run base64ToBlob w evs = Some (w', tr) ->
      (sends tr + awaitingBuffer (page w')
       <= admitted base64ToBlob w evs + awaitingBuffer (page w))%nat).
Proof.
  split; [|split; [|split; [|split]]].
  - intros data readyState w. rewrite ondataavailable_eq.
    destruct (chunk_admittedb w data readyState); reflexivity.
  - intros data readyState w H. apply chunk_admitted_iff in H.
    rewrite ondataavailable_eq, H. reflexivity.
  - intros data readyState w H. rewrite ondataavailable_eq.
    destruct (chunk_admittedb w data readyState) eqn:E; [|reflexivity].
    exfalso. apply H. now apply chunk_admitted_iff.
  - intros w ev r w' tr Hs Hn. pose proof (step_buffer _ _ _ _ _ Hs) as H.
    destruct ev; try (destruct H as [H _]; congruence).
    destruct H as (Ha & Hle & Hb). split; [|lia].
    destruct (Hb ltac:(lia)) as [b E]. exists b, readyState. now subst.
  - induction evs as [|ev evs IH]; intros w w' tr Hr; cbn [run] in Hr.
    + inversion Hr; subst. cbn. lia.
    + destruct (step base64ToBlob w ev) as [[[r w1] t1]|] eqn:Hs;
        [|discriminate].
      destruct (run base64ToBlob w1 evs) as [[w2 t2]|] eqn:Hr2; [|discriminate].
      inversion Hr; subst. specialize (IH _ _ _ Hr2).
      pose proof (step_buffer _ _ _ _ _ Hs) as H.
      rewrite sends_app. cbn [admitted]. rewrite Hs.
      destruct ev; destruct H as [H1 H2];
        try destruct (chunk_admittedb w data readyState); lia.
Qed.

(* ------------------------------------------------------------------ *)
(** ** The variables *)

Lemma main_mimeType i w :
  mimeType (vars (world_of (main btoa i w))) = mimeType (vars w).
Proof.
  unfold main, bind.
  destruct (requestMicrophonePermission_normal (micPromise i) w)
    as (t1 & E1 & _). rewrite E1.
  destruct (btoa (or_empty (VITE_HUME_API_KEY i) ++ ":"
                  ++ or_empty (VITE_HUME_CLIENT_SECRET i))) as [encoded|e] eqn:H.
  - assert (A : exists w2 t2,
        authenticate btoa (VITE_HUME_API_KEY i) (VITE_HUME_CLIENT_SECRET i)
          (fetchPromise i) (jsonPromise i) w = (Normal tt, w2, t2)
        /\ mimeType (vars w2) = mimeType (vars w)).
    { rewrite (authenticate_eq _ _ _ (fetchPromise i) (jsonPromise i) w H).
      do 2 eexists; split; reflexivity. }
    destruct A as (w2 & t2 & E2 & M2). rewrite E2, connect_eq.
    destruct (accessToken (vars w2)); [|exact M2].
    destruct (wireClick_normal (connected w2)) as (w4 & t4 & E4 & _).
    rewrite E4. cbn [world_of fst snd].
    assert (V : vars w4 = vars (connected w2)).
    { revert E4. unfold wireClick. cbv [bind getp when_some emit setp ret].
      destruct (gif (page (connected w2))); intros E; inversion E; reflexivity. }
    rewrite V. exact M2.
  - rewrite (authenticate_throw _ _ e _ _ w H). reflexivity.
Qed.

Lemma step_mimeType w ev r w' tr :
  step base64ToBlob w ev = Some (r, w', tr) ->
  mimeType (vars w') = mimeType (vars w).
Proof.
  intros Hs. destruct ev; cbn [step] in Hs.
  - inversion Hs; subst. reflexivity.
  - destruct (awaitingStream (page w)) eqn:E; [discriminate|].
    inversion Hs as [Hs']; clear Hs. revert Hs'. script.
    destruct stream; [destruct checked|]; cbn; intros Hs; inversion Hs; subst;
      reflexivity.
  - inversion Hs as [Hs']; clear Hs. destruct m.
    + cbn [onMessage] in Hs'. rewrite appendMessage_eq in Hs'.
      inversion Hs'; subst. reflexivity.
    + cbn [onMessage] in Hs'. rewrite appendMessage_eq in Hs'.
      inversion Hs'; subst. reflexivity.
    + change (onMessage base64ToBlob now (AudioOutput data) w = (r, w', tr))
        in Hs'.
      destruct (base64ToBlob data (mimeType (vars w))) as [b|e] eqn:Hb.
      * rewrite (onMessage_audio_eq now _ _ _ Hb) in Hs'.
        destruct (audioQueue (vars w)); [destruct (isPlaying (vars w))|];
          inversion Hs'; subst; reflexivity.
      * rewrite (onMessage_audio_throw now _ _ _ Hb) in Hs'.
        inversion Hs'; subst. reflexivity.
    + cbn [onMessage] in Hs'. rewrite stopAudio_eq in Hs'.
      inversion Hs'; subst. reflexivity.
    + inversion Hs'; subst. reflexivity.
  - inversion Hs; subst. reflexivity.
  - destruct (gif (page w)) as [[|]|];
      try (inversion Hs; subst; reflexivity).
    inversion Hs as [Hs']; clear Hs. unfold onClick in Hs'.
    cbv [bind getv] in Hs'.
    destruct (client (vars w)) as [c|] eqn:Ec.
    + destruct (readyState =? WebSocket_OPEN)%Z.
      * rewrite disconnect_eq in Hs'. inversion Hs'; subst. reflexivity.
      * rewrite connect_eq in Hs'.
        destruct (accessToken (vars w)); inversion Hs'; subst; reflexivity.
    + inversion Hs'; subst. reflexivity.
  - inversion Hs as [Hs']; clear Hs. rewrite ondataavailable_eq in Hs'.
    destruct (chunk_admittedb w data readyState); inversion Hs'; subst;
      reflexivity.
  - destruct (awaitingBuffer (page w)) eqn:E; [discriminate|].
    inversion Hs as [Hs']; clear Hs. revert Hs'. script.
    destruct buffer as [b|e]; cbn;
      [destruct (client (vars w));
       [destruct (readyState =? WebSocket_OPEN)%Z|]|]; cbn;
      intros Hs; inversion Hs; subst; reflexivity.
  - destruct (is_playing_now a (playing (page w))); [|discriminate].
    inversion Hs as [Hs']; clear Hs.
    cbv [bind setp] in Hs'. fold (ended_world a w) in Hs'.
    rewrite onended_eq in Hs'.
    destruct (audioQueue (vars (ended_world a w))); cbn in Hs';
      inversion Hs'; subst; reflexivity.
Qed.

End Properties.

(* ------------------------------------------------------------------ *)
(** ** Which variables change *)

(** C6, as the code has it.  No activation of the script changes
    [mimeType].  Each of the other seven variables is changed by some
    activation: the queue, the client, the playing flag, and also the
    current audio element, the recorder, the audio stream and the access
    token. *)
Theorem C6_mutable_variables :
  constant mimeType
  /\ mutable audioQueue
  /\ mutable client
  /\ mutable isPlaying
  /\ mutable currentAudio
  /\ mutable recorder
  /\ mutable audioStream
  /\ mutable accessToken.
Proof.
  split.
  { intros btoa base64ToBlob w w' [i w0 | w0 ev r w1 tr Hs].
    - apply main_mimeType.
    - exact (step_mimeType _ _ _ _ _ _ Hs). }
  assert (by_next : forall w ev,
    step Sample.base64ToBlob w ev <> None ->
    Transition Sample.btoa Sample.base64ToBlob w (next Sample.base64ToBlob w ev)).
  { intros w ev H. unfold next.
    destruct (step Sample.base64ToBlob w ev) as [[[r w'] tr]|] eqn:E;
      [|congruence].
    exact (by_step _ _ w ev r w' tr E). }
  pose (audio := EvMessage "10:00:00" (AudioOutput "aGk=")).
  pose (stream := EvStream (Normal (mkStream 7)) (Normal tt)).
  pose (opened := next Sample.base64ToBlob Sample.world1 EvOpen).
  repeat split.
  - exists Sample.btoa, Sample.base64ToBlob,
      (started Sample.hi [] Sample.world0),
      (next Sample.base64ToBlob (started Sample.hi [] Sample.world0) audio).
    split; [apply by_next|]; discriminate.
  - exists Sample.btoa, Sample.base64ToBlob, Sample.world0,
      (world_of (main Sample.btoa Sample.startup Sample.world0)).
    split; [apply by_main | discriminate].
  - exists Sample.btoa, Sample.base64ToBlob, Sample.world0,
      (next Sample.base64ToBlob Sample.world0 audio).
    split; [apply by_next|]; discriminate.
  - exists Sample.btoa, Sample.base64ToBlob, Sample.world0,
      (next Sample.base64ToBlob Sample.world0 audio).
    split; [apply by_next|]; discriminate.
  - exists Sample.btoa, Sample.base64ToBlob, opened,
      (next Sample.base64ToBlob opened stream).
    split; [apply by_next|]; discriminate.
  - exists Sample.btoa, Sample.base64ToBlob, opened,
      (next Sample.base64ToBlob opened stream).
    split; [apply by_next|]; discriminate.
  - exists Sample.btoa, Sample.base64ToBlob, Sample.world0,
      (world_of (main Sample.btoa Sample.startup Sample.world0)).
    split; [apply by_main | discriminate].
Qed.

(* ------------------------------------------------------------------ *)
(** ** The properties on the sample inputs *)

(** C1 on the sample page: the first audio message. *)
Lemma C1_witness :
  Sample.base64ToBlob "aGk=" (mimeType (vars Sample.world0)) = Normal Sample.hi
  /\ (world_of (onMessage Sample.base64ToBlob "10:00:00" (AudioOutput "aGk=")
                          Sample.world0)
      = pushed Sample.hi Sample.world0
      \/ (audioQueue (vars Sample.world0) = []
          /\ isPlaying (vars Sample.world0) = false
          /\ world_of (onMessage Sample.base64ToBlob "10:00:00"
                                 (AudioOutput "aGk=") Sample.world0)
             = started Sample.hi [] Sample.world0)).
Proof.
  split; [reflexivity|].
  exact (proj2 (proj2 (proj2
    (proj1 (proj2 (C1_message_callback Sample.base64ToBlob))
       "10:00:00" "aGk=" Sample.hi Sample.world0 eq_refl)))).
Defined.


(** C4 on the sample page: [fetch] rejects. *)
Lemma C4_witness :
  Sample.btoa "key:secret" = Normal "a2V5OnNlY3JldA=="
  /\ authenticate Sample.btoa (Some "key") (Some "secret")
       (Thrown "TypeError: Failed to fetch") (Normal JNull) Sample.world0
     = (Normal tt, Sample.world0,
        [AFetch (token_request "a2V5OnNlY3JldA==");
         AConsoleError "Failed to authenticate:" "TypeError: Failed to fetch"]).
Proof.
  split; [reflexivity|].
  exact (proj1 (proj2 (C4_request_errors_are_logged Sample.btoa))
           (Some "key") (Some "secret") "a2V5OnNlY3JldA=="
           "TypeError: Failed to fetch" (Normal JNull) Sample.world0 eq_refl).
Defined.

(** C5 on the sample page: a click while the client is open. *)
Lemma C5_witness :
  client (vars Sample.world1) = Some 0%nat
  /\ onClick WebSocket_OPEN "10:00:09" Sample.world1
     = disconnect "10:00:09" Sample.world1.
Proof.
  split; [reflexivity|].
  exact (proj1 (proj1 (proj2 C5_click_toggles_connection)
                  WebSocket_OPEN "10:00:09" Sample.world1 0%nat
                  eq_refl eq_refl)).
Defined.

(** C7 on the sample page. *)
Lemma C7_witness :
  Sample.btoa "key:secret" = Normal "a2V5OnNlY3JldA=="
  /\ get_property (JObj [("access_token", JStr "tok-1"); ("expires_in", JNum "1800")])
                  "access_token" = Normal (JStr "tok-1")
  /\ authenticate Sample.btoa (Some "key") (Some "secret")
       (Normal (mkResponse 1))
       (Normal (JObj [("access_token", JStr "tok-1"); ("expires_in", JNum "1800")]))
       Sample.world0
     = (Normal tt,
        mkWorld (set_accessToken (Some "tok-1") (vars Sample.world0))
                (page Sample.world0),
        [AFetch (token_request "a2V5OnNlY3JldA=="); AResJson (mkResponse 1)]).
Proof.
  split; [reflexivity|]. split; [reflexivity|].
  exact (proj1 (C7_authenticate_stores_token Sample.btoa
           (Some "key") (Some "secret") "a2V5OnNlY3JldA==" (mkResponse 1)
           (JObj [("access_token", JStr "tok-1"); ("expires_in", JNum "1800")])
           (JStr "tok-1") "tok-1" Sample.world0 eq_refl eq_refl eq_refl)).
Defined.

(** C8 on the sample conversation. *)
Lemma C8_witness :
  playback_ok Sample.world1
  /\ run Sample.base64ToBlob Sample.world1 Sample.conversation = Some Sample.after_conversation
  /\ (List.length (playing (page (fst Sample.after_conversation))) <= 1)%nat
  /\ (maxConcurrent (page (fst Sample.after_conversation)) <= 1)%nat.
Proof.
  assert (ok : playback_ok Sample.world1).
  { split; [left; reflexivity | cbn; lia]. }
  assert (ran : run Sample.base64ToBlob Sample.world1 Sample.conversation
                = Some (fst Sample.after_conversation, snd Sample.after_conversation)).
  { vm_compute. reflexivity. }
  split; [exact ok|]. split; [vm_compute; reflexivity|].
  exact (proj2 (proj2 (proj2 (proj2
           (C8_one_audio_at_a_time Sample.base64ToBlob))))
           Sample.world1 Sample.conversation
           (fst Sample.after_conversation) (snd Sample.after_conversation) ok ran).
Defined.

(** C9 on the sample page: a chunk recorded while the client is open. *)
Lemma C9_witness :
  chunk_admitted Sample.world1 (mkBlob "abc" "audio/webm") WebSocket_OPEN
  /\ ondataavailable (mkBlob "abc" "audio/webm") WebSocket_OPEN Sample.world1
     = (Normal tt, awaiting_buffer Sample.world1,
        [AArrayBuffer (mkBlob "abc" "audio/webm")]).
Proof.
  assert (ok : chunk_admitted Sample.world1 (mkBlob "abc" "audio/webm")
                 WebSocket_OPEN).
  { split; [reflexivity|]. split; [exists 0%nat; reflexivity | reflexivity]. }
  split; [exact ok|].
  exact (proj1 (proj2 (C9_send_needs_admitted_chunk Sample.base64ToBlob))
           (mkBlob "abc" "audio/webm") WebSocket_OPEN Sample.world1 ok).
Defined.

(** C10 on the sample page while the first audio plays. *)
Lemma C10_witness :
  currentAudio (vars (started Sample.hi [] Sample.world0))
  = Some (mkAudio 0 Sample.hi)
  /\ stop_trace (started Sample.hi [] Sample.world0) = [APause (mkAudio 0 Sample.hi)]
  /\ is_playing_now (mkAudio 0 Sample.hi)
       (playing (page (stopped (started Sample.hi [] Sample.world0)))) = false.
Proof.
  split; [reflexivity|].
  exact (proj1 (proj2 (C10_stopAudio_clears_playback Sample.base64ToBlob))
           (started Sample.hi [] Sample.world0) (mkAudio 0 Sample.hi) eq_refl).
Defined.

(** C3 on the sample page: the first audio message is taken for playback
    by the message callback. *)
Lemma C3_witness :
  Sample.base64ToBlob "aGk=" (mimeType (vars Sample.world0)) = Normal Sample.hi
  /\ audioQueue (vars Sample.world0) = []
  /\ isPlaying (vars Sample.world0) = false
  /\ step Sample.base64ToBlob Sample.world0
          (EvMessage "10:00:00" (AudioOutput "aGk="))
     = Some (Normal tt, started Sample.hi [] Sample.world0,
             [ACreateObjectURL Sample.hi;
              APlay (mkAudio (nextId (page Sample.world0)) Sample.hi)]).
Proof.
  split; [reflexivity|]. split; [reflexivity|]. split; [reflexivity|].
  exact (proj1 (proj1 (proj2
           (C3_queue_drained_one_at_a_time Sample.base64ToBlob))
           "10:00:00" "aGk=" Sample.hi Sample.world0
           eq_refl eq_refl eq_refl)).
Defined.

(** C3 as the spec words it fails: after one blob was taken and played to
    its end, the next blob is taken off the queue by the message
    callback, not by [onended]. *)
Lemma C3_counterexample :
  exists w1 tr1 r w2 tr2,
    run Sample.base64ToBlob Sample.world0
        [EvMessage "10:00:00" (AudioOutput "aGk=");
         EvEnded (mkAudio 0 Sample.hi)]
    = Some (w1, tr1)
    /\ dequeues tr1 = 1%nat
    /\ step Sample.base64ToBlob w1 (EvMessage "10:00:05" (AudioOutput "aGk="))
       = Some (r, w2, tr2)
    /\ dequeues tr2 = 1%nat
    /\ audioQueue (vars w2) = []
    /\ is_ended (EvMessage "10:00:05" (AudioOutput "aGk=")) = false
    /\ calls_stopAudio w1 (EvMessage "10:00:05" (AudioOutput "aGk=")) = false.
Proof.
  do 5 eexists. repeat split; reflexivity.
Qed.

(** C6 as the spec words it fails: callbacks and the start of the page
    change four variables besides the queue, the client and the flag. *)
Lemma C6_counterexample :
  (exists r w' tr,
      step Sample.base64ToBlob Sample.world0
           (EvMessage "10:00:00" (AudioOutput "aGk="))
      = Some (r, w', tr)
      /\ currentAudio (vars Sample.world0) = None
      /\ currentAudio (vars w') = Some (mkAudio 0 Sample.hi))
  /\ (exists w1 tr1,
      run Sample.base64ToBlob Sample.world1
          [EvOpen; EvStream (Normal (mkStream 7)) (Normal tt)]
      = Some (w1, tr1)
      /\ recorder (vars Sample.world1) = None
      /\ recorder (vars w1) = Some 1%nat
      /\ audioStream (vars Sample.world1) = None
      /\ audioStream (vars w1) = Some (mkStream 7))
  /\ accessToken (vars Sample.world0) = None
  /\ accessToken (vars (world_of (main Sample.btoa Sample.startup Sample.world0)))
     = Some "tok-1".
Proof.
  split; [|split; [|split]].
  - do 3 eexists. repeat split; reflexivity.
  - do 2 eexists. repeat split; reflexivity.
  - reflexivity.
  - reflexivity.
Qed.

(** C6 on the sample page: the start of the page keeps [mimeType]. *)
Lemma C6_witness :
  mimeType (vars (world_of (main Sample.btoa Sample.startup Sample.world0)))
  = mimeType (vars Sample.world0).
Proof.
  exact (proj1 C6_mutable_variables Sample.btoa Sample.base64ToBlob
           Sample.world0 _ (by_main _ _ Sample.startup Sample.world0)).
Defined.

(* ------------------------------------------------------------------ *)
(** * Further properties of the script *)

Section More.

Variable btoa : string -> Completion string.
Variable base64ToBlob : string -> string -> Completion Blob.

Lemma step_inv w ev r w' tr :
  step base64ToBlob w ev = Some (r, w', tr) ->
  Stepped base64ToBlob w ev r w' tr.
Proof.
  intros Hs. destruct ev; cbn [step] in Hs.
  - inversion Hs; subst. apply did_open.
  - destruct (awaitingStream (page w)) as [|n] eqn:E; [discriminate|].
    inversion Hs as [Hs']; clear Hs. revert Hs'. script.
    destruct stream as [s|e]; [destruct checked as [[]|e]|]; cbn;
      intros Hs; inversion Hs; subst.
    + apply (did_stream_recording _ _ n s E).
    + apply (did_stream_unchecked _ _ n s e E).
    + apply (did_stream_rejected _ _ n e checked E).
  - inversion Hs as [Hs']; clear Hs. destruct m.
    + cbn [onMessage] in Hs'. rewrite appendMessage_eq in Hs'.
      inversion Hs'; subst. apply did_user.
    + cbn [onMessage] in Hs'. rewrite appendMessage_eq in Hs'.
      inversion Hs'; subst. apply did_assistant.
    + change (onMessage base64ToBlob now (AudioOutput data) w = (r, w', tr))
        in Hs'.
      destruct (base64ToBlob data (mimeType (vars w))) as [b|e] eqn:Hb.
      * rewrite (onMessage_audio_eq _ now _ _ _ Hb) in Hs'.
        destruct (audioQueue (vars w)) as [|b0 rest] eqn:Eq.
        -- destruct (isPlaying (vars w)) eqn:Ef; inversion Hs'; subst.
           ++ apply did_audio_queued; auto.
           ++ apply did_audio_started; auto.
        -- inversion Hs'; subst. apply did_audio_queued; auto.
           left. rewrite Eq. discriminate.
      * rewrite (onMessage_audio_throw _ now _ _ _ Hb) in Hs'.
        inversion Hs'; subst. now apply did_audio_rejected.
    + cbn [onMessage] in Hs'. rewrite stopAudio_eq in Hs'.
      inversion Hs'; subst. apply did_interruption.
    + inversion Hs'; subst. apply did_other.
  - inversion Hs; subst. apply did_close.
  - destruct (gif (page w)) as [[|]|] eqn:Eg;
      try (inversion Hs; subst; apply did_click_unwired; rewrite Eg;
           discriminate).
    inversion Hs as [Hs']; clear Hs. unfold onClick in Hs'.
    cbv [bind getv] in Hs'.
    destruct (client (vars w)) as [c|] eqn:Ec.
    + destruct (readyState =? WebSocket_OPEN)%Z eqn:Er.
      * rewrite disconnect_eq, Ec in Hs'. inversion Hs'; subst.
        apply did_click_disconnect; auto. now apply Z.eqb_eq.
      * rewrite connect_eq in Hs'. apply Z.eqb_neq in Er.
        destruct (accessToken (vars w)) as [token|] eqn:Et;
          inversion Hs'; subst.
        -- now apply (did_click_connect _ _ _ _ c token).
        -- now apply (did_click_connect_refused _ _ _ _ c).
    + inversion Hs'; subst. now apply did_click_no_client.
  - inversion Hs as [Hs']; clear Hs. rewrite ondataavailable_eq in Hs'.
    destruct (chunk_admittedb w data readyState) eqn:E; inversion Hs'; subst.
    + now apply did_data_admitted.
    + now apply did_data_dropped.
  - destruct (awaitingBuffer (page w)) as [|n] eqn:E; [discriminate|].
    inversion Hs as [Hs']; clear Hs. revert Hs'. script.
    destruct buffer as [b|e]; cbn;
      [destruct (client (vars w)) as [c|] eqn:Ec;
       [destruct (readyState =? WebSocket_OPEN)%Z eqn:Er|]|]; cbn;
      intros Hs; inversion Hs; subst.
    + apply (did_buffer_sent _ _ n b c readyState E Ec). now apply Z.eqb_eq.
    + apply (did_buffer_refused _ _ n b c readyState E Ec).
      now apply Z.eqb_neq.
    + apply (did_buffer_no_client _ _ n b readyState E Ec).
    + apply (did_buffer_rejected _ _ n e readyState E).
  - destruct (is_playing_now a (playing (page w))) eqn:Ep; [|discriminate].
    inversion Hs as [Hs']; clear Hs.
    cbv [bind setp] in Hs'. fold (ended_world a w) in Hs'.
    rewrite onended_eq in Hs'.
    destruct (audioQueue (vars (ended_world a w))) as [|b rest] eqn:Eq;
      cbn in Hs'; inversion Hs'; subst.
    + now apply did_ended_idle.
    + now apply did_ended_next.
Qed.

Lemma run_cons w ev rest w' tr :
  run base64ToBlob w (ev :: rest) = Some (w', tr) ->
  exists r w1 t1 t2,
    step base64ToBlob w ev = Some (r, w1, t1)
    /\ next base64ToBlob w ev = w1
    /\ run base64ToBlob w1 rest = Some (w', t2)
    /\ tr = (t1 ++ t2)%list.
Proof.
  cbn [run]. unfold next.
  destruct (step base64ToBlob w ev) as [[[r w1] t1]|]; [|discriminate].
  destruct (run base64ToBlob w1 rest) as [[w2 t2]|] eqn:Hr; [|discriminate].
  intros H. inversion H; subst. now exists r, w1, t1, t2.
Qed.

(* ------------------------------------------------------------------ *)
(** ** Playback order *)

Lemma dequeued_app t u : dequeued (t ++ u) = (dequeued t ++ dequeued u)%list.
Proof. apply flat_map_app. Qed.

Lemma step_order w ev r w' tr :
  step base64ToBlob w ev = Some (r, w', tr) ->
  calls_stopAudio w ev = false ->
  (dequeued tr ++ audioQueue (vars w')
   = audioQueue (vars w) ++ arrived base64ToBlob w ev)%list.
Proof.
  intros Hs Hc.
  destruct (step_inv _ _ _ _ _ Hs); cbn in *;
    rewrite ?app_nil_r; try reflexivity; try discriminate.
  - rewrite H. now rewrite app_nil_r.
  - now rewrite H.
  - now rewrite H, H0.
  - rewrite H, H0 in Hc. subst readyState. discriminate.
  - now rewrite H0.
Qed.

(** X1.  As long as no callback runs [stopAudio], no blob is lost,
    repeated or overtaken: the blobs taken for playback so far, followed
    by those still waiting, are the blobs that waited at the start
    followed by the decoded [audio_output] data in the order the messages
    came. *)
Theorem playback_keeps_arrival_order :
  forall evs w w' tr,
    run base64ToBlob w evs = Some (w', tr) ->
    collect base64ToBlob interruption w evs = [] ->
    (dequeued tr ++ audioQueue (vars w')
     = audioQueue (vars w)
       ++ collect base64ToBlob (arrived base64ToBlob) w evs)%list.
Proof.
  induction evs as [|ev evs IH]; intros w w' tr Hr Hn.
  - cbn in Hr. inversion Hr; subst. cbn. now rewrite app_nil_r.
  - destruct (run_cons _ _ _ _ _ Hr) as (r & w1 & t1 & t2 & Hs & Hx & Hr2 & ->).
    cbn [collect] in *. rewrite Hx in *.
    apply app_eq_nil in Hn as [Hi Hn].
    assert (Hc : calls_stopAudio w ev = false).
    { unfold interruption in Hi.
      destruct (calls_stopAudio w ev); [discriminate | reflexivity]. }
    rewrite dequeued_app, <- app_assoc, (IH _ _ _ Hr2 Hn).
    rewrite !app_assoc. f_equal. exact (step_order _ _ _ _ _ Hs Hc).
Qed.

(* ------------------------------------------------------------------ *)
(** ** The flag follows the browser *)

Lemma in_step_set w :
  isPlaying (vars w) = true ->
  in_step w <-> exists a, playing (page w) = [a] /\ currentAudio (vars w) = Some a.
Proof. unfold in_step. intros ->. reflexivity. Qed.

Lemma in_step_clear w :
  isPlaying (vars w) = false ->
  in_step w <-> playing (page w) = [] /\ audioQueue (vars w) = [].
Proof. unfold in_step. intros ->. reflexivity. Qed.

Lemma in_step_audio_state w w' :
  audio_state w' = audio_state w -> in_step w -> in_step w'.
Proof.
  intros H. apply audio_state_inv in H as (Hq & Hf & Hc & Hp & _).
  unfold in_step. now rewrite Hq, Hf, Hc, Hp.
Qed.

Lemma in_step_stopped w : in_step w -> in_step (stopped w).
Proof.
  intros H. apply in_step_clear; [reflexivity|]. split; [|reflexivity].
  unfold in_step in H. unfold stopped.
  destruct (isPlaying (vars w)).
  - destruct H as (a & Hp & Hc). rewrite Hc. cbn. rewrite Hp. cbn.
    unfold same_audio. now rewrite Nat.eqb_refl.
  - destruct H as [Hp _]. destruct (currentAudio (vars w)); cbn;
      now rewrite Hp.
Qed.

Lemma in_step_ended a w :
  in_step w -> is_playing_now a (playing (page w)) = true ->
  isPlaying (vars w) = true /\ playing (page (ended_world a w)) = [].
Proof.
  unfold in_step. intros H Hin. destruct (isPlaying (vars w)).
  - split; [reflexivity|]. destruct H as (a' & Hp & _).
    rewrite Hp in Hin. cbn in Hin. rewrite orb_false_r in Hin.
    cbn. rewrite Hp. cbn. now rewrite Hin.
  - destruct H as [Hp _]. rewrite Hp in Hin. discriminate.
Qed.

Lemma step_in_step w ev r w' tr :
  step base64ToBlob w ev = Some (r, w', tr) -> in_step w -> in_step w'.
Proof.
  intros Hs Hok.
  destruct (step_effect _ _ _ _ _ _ Hs)
    as [Ha _ _ _ _ | b _ Hb Ha _ | b _ Hq Hf Ha _ | _ Ha _ _ | a _ Hin Ho].
  - exact (in_step_audio_state _ _ Ha Hok).
  - apply (in_step_audio_state _ _ Ha).
    assert (Hf : isPlaying (vars w) = true).
    { destruct Hb as [Hb | Hb]; [|exact Hb].
      destruct (isPlaying (vars w)) eqn:E; [reflexivity|].
      apply (in_step_clear _ E) in Hok. destruct Hok as [_ Hq]. congruence. }
    apply (in_step_set _ Hf) in Hok.
    apply in_step_set; [exact Hf | exact Hok].
  - apply (in_step_audio_state _ _ Ha).
    apply (in_step_clear _ Hf) in Hok. destruct Hok as [Hp _].
    apply in_step_set; [reflexivity|].
    exists (mkAudio (nextId (page w)) b). cbn. rewrite Hp. auto.
  - apply (in_step_audio_state _ _ Ha). now apply in_step_stopped.
  - destruct (in_step_ended a w Hok Hin) as [_ Hnone].
    rewrite onended_eq in Ho.
    destruct (audioQueue (vars (ended_world a w))) as [|b rest] eqn:Eq;
      inversion Ho; subst.
    + apply in_step_clear; [reflexivity|]. split; [exact Hnone | exact Eq].
    + apply in_step_set; [reflexivity|].
      exists (mkAudio (nextId (page w)) b). cbn in *. rewrite Hnone. auto.
Qed.

(** X2.  From a world where the flag, the queue and the browser agree,
    they agree after every sequence of callbacks: the flag is set exactly
    while one element plays, the element [currentAudio] names, and a blob
    waits in the queue only while one plays. *)
Theorem flag_follows_playback :
  forall evs w w' tr,
    in_step w ->
    run base64ToBlob w evs = Some (w', tr) ->
    in_step w'
    /\ (isPlaying (vars w') = true <-> playing (page w') <> [])
    /\ (audioQueue (vars w') <> [] ->
        exists a, playing (page w') = [a]
                  /\ currentAudio (vars w') = Some a
                  /\ isPlaying (vars w') = true).
Proof.
  assert (keeps : forall evs w w' tr,
    in_step w -> run base64ToBlob w evs = Some (w', tr) -> in_step w').
  { induction evs as [|ev evs IH]; intros w w' tr Hok Hr.
    - cbn in Hr. inversion Hr; subst. exact Hok.
    - destruct (run_cons _ _ _ _ _ Hr) as (r & w1 & t1 & t2 & Hs & _ & Hr2 & _).
      exact (IH _ _ _ (step_in_step _ _ _ _ _ Hs Hok) Hr2). }
  intros evs w w' tr Hok Hr. pose proof (keeps _ _ _ _ Hok Hr) as H.
  split; [exact H|]. unfold in_step in H.
  destruct (isPlaying (vars w')).
  - destruct H as (a & Hp & Hc). split.
    + split; [intros _; rewrite Hp; discriminate | reflexivity].
    + intros _. exists a. auto.
  - destruct H as [Hp Hq]. split.
    + split; [discriminate | intros Hn; now elim Hn].
    + intros Hn. now elim Hn.
Qed.

(* ------------------------------------------------------------------ *)
(** ** The transcript *)

Lemma grown_by_nothing (c : option (list Element)) :
  option_map (fun children => (children ++ [])%list) c = c.
Proof. destruct c as [l|]; [cbn; now rewrite app_nil_r | reflexivity]. Qed.

Lemma grown_twice (c : option (list Element)) (a b : list Element) :
  option_map (fun children => (children ++ b)%list)
    (option_map (fun children => (children ++ a)%list) c)
  = option_map (fun children => (children ++ (a ++ b))%list) c.
Proof. destruct c as [l|]; [cbn; now rewrite app_assoc | reflexivity]. Qed.

Lemma step_transcript w ev r w' tr :
  step base64ToBlob w ev = Some (r, w', tr) ->
  chat (page w')
  = option_map (fun children => (children ++ spoken w ev)%list) (chat (page w)).
Proof.
  intros Hs.
  destruct (step_inv _ _ _ _ _ Hs); cbn [spoken];
    try (rewrite grown_by_nothing; reflexivity);
    try reflexivity.
  - rewrite grown_by_nothing. unfold stopped.
    destruct (currentAudio (vars w)); reflexivity.
  - cbn. destruct (gif (page w)) as [[|]|]; try congruence;
      now rewrite grown_by_nothing.
  - cbn. rewrite H, H0. now rewrite grown_by_nothing.
  - cbn [calls_stopAudio]. rewrite H, H0. subst readyState. cbn.
    unfold stopped. destruct (currentAudio (vars w)); reflexivity.
  - cbn [calls_stopAudio]. rewrite H, H0.
    apply Z.eqb_neq in H1. rewrite H1. now rewrite grown_by_nothing.
  - cbn [calls_stopAudio]. rewrite H, H0.
    apply Z.eqb_neq in H1. rewrite H1. now rewrite grown_by_nothing.
Qed.

(** X3.  The chat only grows, and by exactly what was said: after any
    sequence of callbacks it holds the paragraphs it held before followed
    by one paragraph for each user or assistant message and one
    [Conversation ended.] for each disconnecting click, in the order of
    the events.  A page without the chat element never gets one. *)
Theorem transcript_is_what_was_said :
  forall evs w w' tr,
    run base64ToBlob w evs = Some (w', tr) ->
    chat (page w')
    = option_map
        (fun children => (children ++ collect base64ToBlob spoken w evs)%list)
        (chat (page w)).
Proof.
  induction evs as [|ev evs IH]; intros w w' tr Hr.
  - cbn in Hr. inversion Hr; subst. cbn [collect].
    now rewrite grown_by_nothing.
  - destruct (run_cons _ _ _ _ _ Hr) as (r & w1 & t1 & t2 & Hs & Hx & Hr2 & _).
    cbn [collect]. rewrite Hx, (IH _ _ _ Hr2), (step_transcript _ _ _ _ _ Hs).
    apply grown_twice.
Qed.

(* ------------------------------------------------------------------ *)
(** ** Stopping the recorder *)

Lemma stopped_recorders_app t u :
  stopped_recorders (t ++ u) = (stopped_recorders t ++ stopped_recorders u)%list.
Proof. apply flat_map_app. Qed.

(** What a callback does to the recorder: it stops none or exactly the
    one it holds, which it then forgets; it holds afterwards the one it
    held or one it has just created. *)
Lemma step_recorder w ev r w' tr :
  step base64ToBlob w ev = Some (r, w', tr) ->
  (stopped_recorders tr = []
   \/ exists r0, stopped_recorders tr = [r0]
                 /\ recorder (vars w) = Some r0
                 /\ recorder (vars w') = None)
  /\ (nextId (page w) <= nextId (page w'))%nat
  /\ (forall r1, recorder (vars w') = Some r1 ->
                 recorder (vars w) = Some r1
                 \/ (r1 = nextId (page w) /\ nextId (page w') = S r1)).
Proof.
  intros Hs.
  destruct (step_inv _ _ _ _ _ Hs);
    try (split; [left; reflexivity | split; [cbn; lia | cbn; auto]]).
  - intros r1 H1. inversion H1. right. auto.
  - split; [left; unfold stop_trace; destruct (currentAudio (vars w));
            reflexivity|].
    split; [unfold stopped; destruct (currentAudio (vars w)); cbn; lia|].
    cbn. auto.
  - split; [|split].
    + rewrite !stopped_recorders_app. unfold stop_trace, recorder_stop_trace.
      destruct (recorder (vars w)) as [r0|] eqn:Er.
      * right. exists r0. destruct (currentAudio (vars w)); cbn; auto.
      * left. destruct (currentAudio (vars w)); reflexivity.
    + unfold disconnected, stopped.
      destruct (currentAudio (vars w)); cbn; lia.
    + cbn. discriminate.
Qed.

Lemma step_recorder_known w ev r w' tr :
  step base64ToBlob w ev = Some (r, w', tr) ->
  recorder_known w -> recorder_known w'.
Proof.
  intros Hs Hk r1 H1.
  destruct (step_recorder _ _ _ _ _ Hs) as (_ & Hn & Hr).
  destruct (Hr r1 H1) as [H | [-> H]]; [|lia].
  specialize (Hk r1 H). lia.
Qed.

Lemma run_recorder evs : forall w w' tr,
  run base64ToBlob w evs = Some (w', tr) ->
  (nextId (page w) <= nextId (page w'))%nat
  /\ (forall r1, recorder (vars w') = Some r1 ->
                 recorder (vars w) = Some r1 \/ (nextId (page w) <= r1)%nat).
Proof.
  induction evs as [|ev evs IH]; intros w w' tr Hr.
  - cbn in Hr. inversion Hr; subst. split; [lia | auto].
  - destruct (run_cons _ _ _ _ _ Hr) as (r & w1 & t1 & t2 & Hs & _ & Hr2 & _).
    destruct (step_recorder _ _ _ _ _ Hs) as (_ & Hn & Hstep).
    destruct (IH _ _ _ Hr2) as (Hn2 & Hrun).
    split; [lia|]. intros r1 H1.
    destruct (Hrun r1 H1) as [H | H]; [|right; lia].
    destruct (Hstep r1 H) as [H' | [-> _]]; [now left | right; lia].
Qed.

(** X4.  The script never stops a recorder twice, and never holds again
    a recorder it has stopped: along every sequence of callbacks, from a
    world whose recorder (if any) was created earlier, the recorders
    stopped are all different and none of them is the one held at the
    end.  A callback stops at most the recorder held when it runs. *)
Theorem recorder_stopped_at_most_once :
  forall evs w w' tr,
    recorder_known w ->
    run base64ToBlob w evs = Some (w', tr) ->
    NoDup (stopped_recorders tr)
    /\ (forall r, In r (stopped_recorders tr) -> recorder (vars w') <> Some r)
    /\ (forall r, In r (stopped_recorders tr) ->
                  recorder (vars w) = Some r \/ (nextId (page w) <= r)%nat)
    /\ recorder_known w'.
Proof.
  induction evs as [|ev evs IH]; intros w w' tr Hk Hr.
  - cbn in Hr. inversion Hr; subst. cbn.
    split; [constructor|]. split; [intros r []|]. split; [intros r []|].
    exact Hk.
  - destruct (run_cons _ _ _ _ _ Hr) as (r & w1 & t1 & t2 & Hs & _ & Hr2 & ->).
    pose proof (step_recorder_known _ _ _ _ _ Hs Hk) as Hk1.
    destruct (step_recorder _ _ _ _ _ Hs) as (Hstop & Hn & Hstep).
    destruct (IH _ _ _ Hk1 Hr2) as (Hnd & Hgone & Hfrom & Hk').
    destruct (run_recorder _ _ _ _ Hr2) as (Hn2 & Hrun).
    assert (Hfrom' : forall r0, In r0 (stopped_recorders t2) ->
              recorder (vars w) = Some r0 \/ (nextId (page w) <= r0)%nat).
    { intros r0 Hin. destruct (Hfrom r0 Hin) as [H | H]; [|right; lia].
      destruct (Hstep r0 H) as [H' | [-> _]]; [now left | right; lia]. }
    rewrite stopped_recorders_app.
    destruct Hstop as [-> | (r0 & -> & Hheld & Hnone)]; cbn [app].
    + repeat split; auto.
    + assert (Hlt : (r0 < nextId (page w))%nat) by exact (Hk r0 Hheld).
      assert (Hnot : ~ In r0 (stopped_recorders t2)).
      { intros Hin. destruct (Hfrom r0 Hin) as [H | H]; [congruence | lia]. }
      split; [constructor; assumption|].
      split; [|split; [|exact Hk']].
      * intros r1 [<- | Hin]; [|exact (Hgone r1 Hin)].
        intros Hagain. destruct (Hrun r0 Hagain) as [H | H];
          [congruence | lia].
      * intros r1 [<- | Hin]; [now left | exact (Hfrom' r1 Hin)].
Qed.

(* ------------------------------------------------------------------ *)
(** ** Starting recorders *)

Lemma started_recorders_app t u :
  started_recorders (t ++ u) = (started_recorders t ++ started_recorders u)%list.
Proof. apply flat_map_app. Qed.

Lemma created_recorders_app t u :
  created_recorders (t ++ u) = (created_recorders t ++ created_recorders u)%list.
Proof. apply flat_map_app. Qed.

(** A callback starts exactly the recorders it creates: one, the next
    object, when it is the settlement of a capture whose stream was
    obtained and checked, none otherwise.  What it starts and what it
    leaves suspended is paid for by an [open] event or by a capture that
    was suspended. *)
Lemma step_capture w ev r w' tr :
  step base64ToBlob w ev = Some (r, w', tr) ->
  started_recorders tr = created_recorders tr
  /\ started_recorders tr
     = (if is_capture ev then [nextId (page w)] else [])
  /\ (is_capture ev = true -> nextId (page w') = S (nextId (page w)))
  /\ (List.length (started_recorders tr) + awaitingStream (page w')
      <= (if is_open ev then 1 else 0) + awaitingStream (page w))%nat.
Proof.
  intros Hs.
  destruct (step_inv _ _ _ _ _ Hs);
    try (split; [reflexivity |
         split; [reflexivity |
         split; [cbn; first [discriminate | reflexivity] | cbn; lia]]]).
  - unfold stop_trace, stopped.
    destruct (currentAudio (vars w));
      (split; [reflexivity |
       split; [reflexivity | split; [discriminate | cbn; lia]]]).
  - unfold stop_trace, recorder_stop_trace, disconnected, stopped, with_message.
    destruct (currentAudio (vars w)), (recorder (vars w));
      (split; [reflexivity |
       split; [reflexivity | split; [discriminate | cbn; lia]]]).
Qed.

(** X5.  Taking the [MediaRecorder] constructor and [start] as calls
    that do not throw: a capture whose stream is obtained and checked
    creates one recorder, starts it at once with a time slice of 100 and
    holds it.  Hence along every sequence of callbacks the recorders
    started are exactly the recorders created, in the same order, one for
    each such capture, all different and all created during the
    sequence; and there are at most as many of them, together with the
    captures still suspended at the end, as [open] events and captures
    suspended at the start. *)
Theorem recorder_started_once :
  forall evs w w' tr,
    run base64ToBlob w evs = Some (w', tr) ->
    (forall n s w0,
        awaitingStream (page w0) = S n ->
        step base64ToBlob w0 (EvStream (Normal s) (Normal tt))
        = Some (Normal tt, recording s (capture_resumed n w0),
                [ACheckForAudioTracks s;
                 ANewRecorder (nextId (page w0)) s (mimeType (vars w0));
                 ARecorderStart (nextId (page w0)) 100])
        /\ recorder (vars (recording s (capture_resumed n w0)))
           = Some (nextId (page w0)))
    /\ started_recorders tr = created_recorders tr
    /\ List.length (started_recorders tr) = List.length (filter is_capture evs)
    /\ NoDup (started_recorders tr)
    /\ (forall r, In r (started_recorders tr) ->
                  (nextId (page w) <= r < nextId (page w'))%nat)
    /\ (List.length (started_recorders tr) + awaitingStream (page w')
        <= List.length (filter is_open evs) + awaitingStream (page w))%nat.
Proof.
  intros evs w w' tr Hr. split.
  { intros n s w0 E. split; [|reflexivity].
    cbn [step]. rewrite E. reflexivity. }
  revert w w' tr Hr.
  induction evs as [|ev evs IH]; intros w w' tr Hr.
  - cbn in Hr. inversion Hr; subst. cbn.
    split; [reflexivity|]. split; [reflexivity|].
    split; [constructor|]. split; [intros r []|lia].
  - destruct (run_cons _ _ _ _ _ Hr) as (r & w1 & t1 & t2 & Hs & _ & Hr2 & ->).
    destruct (step_capture _ _ _ _ _ Hs) as (Hsame & Hone & Hnext & Hpay).
    destruct (step_recorder _ _ _ _ _ Hs) as (_ & Hn & _).
    destruct (run_recorder _ _ _ _ Hr2) as (Hn2 & _).
    destruct (IH _ _ _ Hr2) as (Hsame2 & Hcount & Hnd & Hin & Hle).
    rewrite started_recorders_app, created_recorders_app, length_app.
    assert (Hopen : (List.length (filter is_open (ev :: evs))
                     = (if is_open ev then 1 else 0)
                       + List.length (filter is_open evs))%nat).
    { cbn [filter]. destruct (is_open ev); reflexivity. }
    assert (Hcap : (List.length (filter is_capture (ev :: evs))
                    = (if is_capture ev then 1 else 0)
                      + List.length (filter is_capture evs))%nat).
    { cbn [filter]. destruct (is_capture ev); reflexivity. }
    rewrite Hopen, Hcap. clear Hopen Hcap.
    split; [now rewrite Hsame, Hsame2|].
    rewrite Hone in *. destruct (is_capture ev); cbn [app List.length] in *.
    + specialize (Hnext eq_refl).
      split; [lia|]. split; [|split; [|lia]].
      * constructor; [|exact Hnd].
        intros H0. specialize (Hin _ H0). lia.
      * intros r0 [<- | H0]; [lia|]. specialize (Hin r0 H0). lia.
    + split; [lia|]. split; [exact Hnd|]. split; [|lia].
      intros r0 H0. specialize (Hin r0 H0). lia.
Qed.

(* ------------------------------------------------------------------ *)
(** ** When the message callback throws *)

(** X6.  The message callback ends by throwing only when the data of an
    [audio_output] does not decode; it has then queued nothing, called
    nothing and changed nothing.  For every other message, and whenever
    the data decodes, it ends normally. *)
Theorem message_callback_throws_only_on_bad_audio :
  forall now m w,
    (forall e,
        completion (onMessage base64ToBlob now m w) = Thrown e ->
        exists d,
          m = AudioOutput d
          /\ base64ToBlob d (mimeType (vars w)) = Thrown e
          /\ onMessage base64ToBlob now m w = (Thrown e, w, []))
    /\ (forall d e,
        m = AudioOutput d ->
        base64ToBlob d (mimeType (vars w)) = Thrown e ->
        onMessage base64ToBlob now m w = (Thrown e, w, []))
    /\ ((forall d, m = AudioOutput d ->
                   exists b, base64ToBlob d (mimeType (vars w)) = Normal b) ->
        completion (onMessage base64ToBlob now m w) = Normal tt).
Proof.
  intros now m w.
  assert (decoded : forall d b,
    base64ToBlob d (mimeType (vars w)) = Normal b ->
    completion (onMessage base64ToBlob now (AudioOutput d) w) = Normal tt).
  { intros d b Hb. rewrite (onMessage_audio_eq base64ToBlob now d b w Hb).
    destruct (audioQueue (vars w)); [destruct (isPlaying (vars w))|];
      reflexivity. }
  split; [|split].
  - intros e He. destruct m; cbn [onMessage] in He.
    + rewrite appendMessage_eq in He. discriminate.
    + rewrite appendMessage_eq in He. discriminate.
    + destruct (base64ToBlob data (mimeType (vars w))) as [b|e0] eqn:Hb.
      * change (completion (onMessage base64ToBlob now (AudioOutput data) w)
                = Thrown e) in He.
        rewrite (decoded data b Hb) in He. discriminate.
      * change (completion (onMessage base64ToBlob now (AudioOutput data) w)
                = Thrown e) in He.
        rewrite (onMessage_audio_throw base64ToBlob now data e0 w Hb) in *.
        cbn in He. inversion He; subst. now exists data.
    + rewrite stopAudio_eq in He. discriminate.
    + discriminate.
  - intros d e -> Hb. exact (onMessage_audio_throw base64ToBlob now d e w Hb).
  - intros Hd. destruct m; cbn [onMessage].
    + now rewrite appendMessage_eq.
    + now rewrite appendMessage_eq.
    + destruct (Hd data eq_refl) as [b Hb]. exact (decoded data b Hb).
    + now rewrite stopAudio_eq.
    + reflexivity.
Qed.

(* ------------------------------------------------------------------ *)
(** ** Disconnecting twice *)

(** X7.  [stopAudio] and [disconnect] can be repeated: a second
    [stopAudio] calls nothing and changes nothing; a second [disconnect]
    pauses nothing and stops no recorder, but disconnects the client
    again and appends a second [Conversation ended.] to the chat,
    leaving every variable as the first left it. *)
Theorem disconnect_twice :
  forall now1 now2 w,
    stopAudio (stopped w) = (Normal tt, stopped w, [])
    /\ disconnect now2 (disconnected now1 w)
       = (Normal tt,
          with_message (message_element now2 "system" "Conversation ended.")
            (disconnected now1 w),
          match client (vars w) with
          | Some c => [AClientDisconnect c]
          | None => []
          end)
    /\ vars (world_of (disconnect now2 (disconnected now1 w)))
       = vars (disconnected now1 w)
    /\ playing (page (world_of (disconnect now2 (disconnected now1 w))))
       = playing (page (disconnected now1 w)).
Proof.
  intros now1 now2 w.
  split; [rewrite stopAudio_eq; open_world w; reflexivity|].
  rewrite disconnect_eq.
  split; [|split].
  - open_world w. cbn. destruct cur, ch, cl; reflexivity.
  - open_world w. cbn. destruct ch; reflexivity.
  - open_world w. cbn. destruct cur, ch; reflexivity.
Qed.

(* ------------------------------------------------------------------ *)
(** ** The start of the page, case by case *)

(** X8.  When [btoa] throws on the key and the secret, [authenticate]
    throws that error before any request and changes nothing, and the
    start of the page stops there: after the microphone request no token
    is fetched, no client is created and the click listener is never
    attached, so a later click on the gif does nothing. *)
Theorem startup_stops_when_btoa_throws :
  forall i w e,
    btoa (or_empty (VITE_HUME_API_KEY i) ++ ":"
          ++ or_empty (VITE_HUME_CLIENT_SECRET i)) = Thrown e ->
    (forall fetched parsed w0,
        authenticate btoa (VITE_HUME_API_KEY i) (VITE_HUME_CLIENT_SECRET i)
          fetched parsed w0 = (Thrown e, w0, []))
    /\ main btoa i w
       = (Thrown e, w, trace_of (requestMicrophonePermission (micPromise i) w))
    /\ stages (trace_of (main btoa i w)) = [Microphone]
    /\ (forall a, In a (trace_of (main btoa i w)) ->
                  a = AGetAudioStream \/ exists msg err, a = AConsoleError msg err)
    /\ (gif (page w) <> Some true ->
        forall readyState now,
          step base64ToBlob (world_of (main btoa i w)) (EvClick readyState now)
          = Some (Normal tt, w, [])).
Proof.
  intros i w e H.
  assert (Hm : main btoa i w
               = (Thrown e, w,
                  trace_of (requestMicrophonePermission (micPromise i) w))).
  { unfold main, bind.
    destruct (requestMicrophonePermission_normal (micPromise i) w)
      as (t1 & E1 & _).
    rewrite E1, (authenticate_throw btoa _ _ e _ _ w H).
    cbn. now rewrite app_nil_r. }
  split; [intros; now apply authenticate_throw|].
  split; [exact Hm|]. rewrite Hm. cbn [trace_of world_of fst snd].
  split; [|split].
  - destruct (requestMicrophonePermission_normal (micPromise i) w)
      as (t1 & E1 & S1). now rewrite E1.
  - intros a. destruct (micPromise i) as [s|err]; cbn.
    + intros [<- | []]. now left.
    + intros [<- | [<- | []]]; [now left | right; eauto].
  - intros Hg readyState now. cbn [step].
    destruct (gif (page w)) as [[|]|]; try reflexivity. now elim Hg.
Qed.

(** X9.  Once [btoa] has succeeded [authenticate] always returns
    normally, makes exactly one request and changes nothing but
    [accessToken].  When [fetch] or [res.json()] rejects, when the answer
    is [null], or when [access_token] is an object with a [toString]
    member of its own (so that [String] throws), the error is logged and
    the token from before is kept.  Otherwise the text is stored and
    nothing is logged: the member itself when it is a string, and the
    text [undefined] when the answer is an object without [access_token]
    or is a string. *)
Theorem authenticate_leaves_a_token :
  forall key secret encoded fetched parsed w,
    btoa (or_empty key ++ ":" ++ or_empty secret) = Normal encoded ->
    authenticate btoa key secret fetched parsed w
    = (Normal tt,
       mkWorld (set_accessToken
                  (token_after (accessToken (vars w)) fetched parsed) (vars w))
               (page w),
       AFetch (token_request encoded) :: token_log fetched parsed)
    /\ stages (token_log fetched parsed) = []
    /\ (forall e,
           token_outcome fetched parsed = Thrown e ->
           token_after (accessToken (vars w)) fetched parsed
           = accessToken (vars w)
           /\ In (AConsoleError "Failed to authenticate:" e)
                 (token_log fetched parsed))
    /\ (forall text,
           token_outcome fetched parsed = Normal text ->
           token_after (accessToken (vars w)) fetched parsed = Some text
           /\ exists res, fetched = Normal res
                          /\ token_log fetched parsed = [AResJson res])
    /\ (forall e p, token_outcome (Thrown e) p = Thrown e)
    /\ (forall res e, token_outcome (Normal res) (Thrown e) = Thrown e)
    /\ (forall res,
           token_outcome (Normal res) (Normal JNull)
           = Thrown "TypeError: Cannot read properties of null")
    /\ (forall res props inner,
           lookup_prop "access_token" props = JObj inner ->
           has_own "toString" inner = true ->
           token_outcome (Normal res) (Normal (JObj props))
           = Thrown "TypeError: Cannot convert object to primitive value")
    /\ (forall res props text,
           lookup_prop "access_token" props = JStr text ->
           token_outcome (Normal res) (Normal (JObj props)) = Normal text)
    /\ (forall res props,
           lookup_prop "access_token" props = JUndefined ->
           token_outcome (Normal res) (Normal (JObj props))
           = Normal "undefined")
    /\ (forall res text,
           token_outcome (Normal res) (Normal (JStr text))
           = Normal "undefined").
Proof.
  intros key secret encoded fetched parsed w H.
  split; [exact (authenticate_eq btoa _ _ _ fetched parsed w H)|].
  split; [apply token_log_stages|].
  split; [|split].
  - intros e He. unfold token_after, token_log. rewrite He.
    split; [reflexivity|]. apply in_or_app. right. cbn. auto.
  - intros text Ht. unfold token_after, token_log. rewrite Ht.
    split; [reflexivity|].
    destruct fetched as [res|e]; [|discriminate].
    exists res. split; [reflexivity | apply app_nil_r].
  - repeat split.
    + intros res props inner Hp Ho. cbn. rewrite Hp. cbn. now rewrite Ho.
    + intros res props text Hp. cbn. now rewrite Hp.
    + intros res props Hp. cbn. now rewrite Hp.
Qed.

(** X10.  When [btoa] succeeds and a token is stored after
    [authenticate] (the fresh one, or the one from before when the
    request failed), the start of the page ends normally with a new
    client, created with exactly that token and then connected; of the
    variables only [accessToken] and [client] change, the click listener
    is attached when the page has the gif, and the chat is untouched.
    When no token is stored after [authenticate], [connect] throws
    before creating a client: none is created or connected and no
    listener is attached. *)
Theorem startup_connects_with_the_token_left :
  forall i w encoded,
    btoa (or_empty (VITE_HUME_API_KEY i) ++ ":"
          ++ or_empty (VITE_HUME_CLIENT_SECRET i)) = Normal encoded ->
    (forall token,
        token_after (accessToken (vars w)) (fetchPromise i) (jsonPromise i)
        = Some token ->
        completion (main btoa i w) = Normal tt
        /\ vars (world_of (main btoa i w))
           = set_client (Some (nextId (page w)))
               (set_accessToken (Some token) (vars w))
        /\ In (ACreateClient (nextId (page w)) (Some token))
              (trace_of (main btoa i w))
        /\ In (AClientConnect (nextId (page w))) (trace_of (main btoa i w))
        /\ gif (page (world_of (main btoa i w)))
           = option_map (fun _ => true) (gif (page w))
        /\ chat (page (world_of (main btoa i w))) = chat (page w)
        /\ playing (page (world_of (main btoa i w))) = playing (page w))
    /\ (token_after (accessToken (vars w)) (fetchPromise i) (jsonPromise i)
        = None ->
        completion (main btoa i w) = Thrown createConfig_refusal
        /\ client (vars (world_of (main btoa i w))) = client (vars w)
        /\ gif (page (world_of (main btoa i w))) = gif (page w)
        /\ (forall c token,
               ~ In (ACreateClient c token) (trace_of (main btoa i w)))
        /\ (forall c, ~ In (AClientConnect c) (trace_of (main btoa i w)))
        /\ ~ In AAddClickListener (trace_of (main btoa i w))).
Proof.
  intros i w encoded H.
  destruct (requestMicrophonePermission_normal (micPromise i) w)
    as (t1 & E1 & S1).
  pose proof (authenticate_eq btoa _ _ _ (fetchPromise i) (jsonPromise i) w H)
    as E2.
  assert (mic : forall a, In a t1 ->
            a = AGetAudioStream \/ exists msg err, a = AConsoleError msg err).
  { revert E1. destruct (micPromise i) as [s0|err]; cbn; intros E;
      inversion E; subst; cbn.
    - intros a [<- | []]. now left.
    - intros a [<- | [<- | []]]; [now left | right; eauto]. }
  assert (log : forall a, In a (token_log (fetchPromise i) (jsonPromise i)) ->
            (exists res, a = AResJson res)
            \/ exists msg err, a = AConsoleError msg err).
  { unfold token_log. intros a Ha. apply in_app_or in Ha as [Ha | Ha].
    - destruct (fetchPromise i); cbn in Ha; [|destruct Ha].
      destruct Ha as [<- | []]. left. eauto.
    - destruct (token_outcome _ _); cbn in Ha; [destruct Ha|].
      destruct Ha as [<- | []]. right. eauto. }
  split.
  - intros token Ht. rewrite Ht in E2.
    assert (Hm : exists w' t4,
      main btoa i w
      = (Normal tt, w',
         (t1 ++ (AFetch (token_request encoded)
                   :: token_log (fetchPromise i) (jsonPromise i))
             ++ connect_trace
                  (mkWorld (set_accessToken (Some token) (vars w)) (page w))
             ++ t4)%list)
      /\ vars w' = set_client (Some (nextId (page w)))
                     (set_accessToken (Some token) (vars w))
      /\ gif (page w') = option_map (fun _ => true) (gif (page w))
      /\ chat (page w') = chat (page w)
      /\ playing (page w') = playing (page w)).
    { unfold main, bind. rewrite E1, E2, connect_eq.
      cbn [vars accessToken set_accessToken].
      unfold wireClick. cbv [bind getp when_some emit setp ret]. cbn.
      destruct (gif (page w)) eqn:Eg; do 2 eexists;
        (split; [reflexivity|]); cbn; rewrite ?Eg; repeat split. }
    destruct Hm as (w' & t4 & Em & Hv & Hg & Hc & Hp). rewrite Em.
    cbn [completion world_of trace_of fst snd].
    split; [reflexivity|]. split; [exact Hv|].
    split; [|split; [|split; [exact Hg | split; [exact Hc | exact Hp]]]].
    + rewrite !in_app_iff. right. right. left. cbn. auto.
    + rewrite !in_app_iff. right. right. left. cbn. auto 6.
  - intros Ht. rewrite Ht in E2.
    assert (Em : main btoa i w
         = (Thrown createConfig_refusal,
            mkWorld (set_accessToken None (vars w)) (page w),
            (t1 ++ AFetch (token_request encoded)
                :: token_log (fetchPromise i) (jsonPromise i))%list)).
    { unfold main, bind. rewrite E1, E2, connect_eq. cbn.
      now rewrite app_nil_r. }
    rewrite Em. cbn [completion world_of trace_of fst snd].
    assert (none : forall a,
              In a (t1 ++ AFetch (token_request encoded)
                      :: token_log (fetchPromise i) (jsonPromise i))%list ->
              a = AGetAudioStream
              \/ (exists req, a = AFetch req)
              \/ (exists res, a = AResJson res)
              \/ exists msg err, a = AConsoleError msg err).
    { intros a Ha. apply in_app_or in Ha as [Ha | [<- | Ha]].
      - destruct (mic a Ha) as [-> | Hx]; auto.
      - right. left. eauto.
      - destruct (log a Ha) as [Hx | Hx]; auto. }
    split; [reflexivity|]. split; [reflexivity|]. split; [reflexivity|].
    split; [|split].
    + intros c token Hin.
      destruct (none _ Hin) as [Hx | [[? Hx] | [[? Hx] | (? & ? & Hx)]]];
        discriminate.
    + intros c Hin.
      destruct (none _ Hin) as [Hx | [[? Hx] | [[? Hx] | (? & ? & Hx)]]];
        discriminate.
    + intros Hin.
      destruct (none _ Hin) as [Hx | [[? Hx] | [[? Hx] | (? & ? & Hx)]]];
        discriminate.
Qed.

(* ------------------------------------------------------------------ *)
(** ** Audio after a stop *)

(** X11.  Because [stopAudio] clears the flag together with the queue,
    the first [audio_output] after an interruption or a disconnect is
    played at once, whatever was playing or waiting before: it is not
    left in the queue behind a flag that nothing would clear. *)
Theorem audio_after_stop_plays_at_once :
  forall now now' d b w,
    base64ToBlob d (mimeType (vars w)) = Normal b ->
    step base64ToBlob (stopped w) (EvMessage now (AudioOutput d))
    = Some (Normal tt, started b [] (stopped w),
            [ACreateObjectURL b; APlay (mkAudio (nextId (page w)) b)])
    /\ step base64ToBlob (disconnected now' w) (EvMessage now (AudioOutput d))
       = Some (Normal tt, started b [] (disconnected now' w),
               [ACreateObjectURL b; APlay (mkAudio (nextId (page w)) b)])
    /\ audioQueue (vars (started b [] (stopped w))) = []
    /\ currentAudio (vars (started b [] (stopped w)))
       = Some (mkAudio (nextId (page w)) b).
Proof.
  intros now now' d b w H.
  split; [|split; [|split;
    unfold stopped; destruct (currentAudio (vars w)); reflexivity]].
  - cbn [step].
    rewrite (onMessage_audio_eq base64ToBlob now d b (stopped w)).
    + unfold stopped. destruct (currentAudio (vars w)); reflexivity.
    + exact H.
  - cbn [step].
    rewrite (onMessage_audio_eq base64ToBlob now d b (disconnected now' w)).
    + open_world w. cbn. destruct cur, ch; reflexivity.
    + open_world w. cbn in *. destruct ch; exact H.
Qed.

End More.

(* ------------------------------------------------------------------ *)
(** ** The further properties on the sample inputs *)

Example talk_plays_in_order :
  dequeued (snd Scenario.after_talk) = [Sample.hi; Sample.hi]
  /\ audioQueue (vars (fst Scenario.after_talk)) = []
  /\ collect Sample.base64ToBlob (arrived Sample.base64ToBlob)
       Sample.world1 Scenario.talk = [Sample.hi; Sample.hi].
Proof. vm_compute. auto. Qed.

Example unauthorised_start :
  trace_of (main Sample.btoa Scenario.unauthorised Sample.world0)
  = [ AGetAudioStream;
      AConsoleError "Failed to get microphone permission:" "NotAllowedError";
      AFetch (token_request "a2V5OnNlY3JldA==");
      AResJson (mkResponse 1);
      ACreateClient 0 (Some "undefined");
      AOn 0 "open"; AOn 0 "message"; AOn 0 "close";
      AClientConnect 0;
      AAddClickListener ].
Proof. vm_compute. reflexivity. Qed.

Example offline_start :
  main Sample.btoa Scenario.offline Sample.world0
  = (Thrown createConfig_refusal, Sample.world0,
     [ AGetAudioStream;
       AFetch (token_request "a2V5OnNlY3JldA==");
       AConsoleError "Failed to authenticate:" "TypeError: Failed to fetch" ]).
Proof. vm_compute. reflexivity. Qed.

(** A chunk admitted while the socket was open, sent after it closed. *)
Example late_send_throws :
  run Sample.base64ToBlob Sample.world1
      [EvData (mkBlob "abc" "audio/webm") 1; EvClick 1 "10:00:09"]
  = Some (next Sample.base64ToBlob
            (next Sample.base64ToBlob Sample.world1
                  (EvData (mkBlob "abc" "audio/webm") 1))
            (EvClick 1 "10:00:09"),
          [AArrayBuffer (mkBlob "abc" "audio/webm"); AClientDisconnect 0])
  /\ step Sample.base64ToBlob
       (next Sample.base64ToBlob
          (next Sample.base64ToBlob Sample.world1
                (EvData (mkBlob "abc" "audio/webm") 1))
          (EvClick 1 "10:00:09"))
       (EvBuffer (Normal "abc") 3)
     = Some (Thrown sendAudio_refusal,
             next Sample.base64ToBlob
               (next Sample.base64ToBlob
                  (next Sample.base64ToBlob Sample.world1
                        (EvData (mkBlob "abc" "audio/webm") 1))
                  (EvClick 1 "10:00:09"))
               (EvBuffer (Normal "abc") 3),
             [ASendAudio 0 "abc"]).
Proof. vm_compute. split; reflexivity. Qed.

(** X1 on the sample talk. *)
Lemma playback_keeps_arrival_order_witness :
  run Sample.base64ToBlob Sample.world1 Scenario.talk
  = Some (fst Scenario.after_talk, snd Scenario.after_talk)
  /\ collect Sample.base64ToBlob interruption Sample.world1 Scenario.talk = []
  /\ (dequeued (snd Scenario.after_talk)
      ++ audioQueue (vars (fst Scenario.after_talk))
      = audioQueue (vars Sample.world1)
        ++ collect Sample.base64ToBlob (arrived Sample.base64ToBlob)
             Sample.world1 Scenario.talk)%list.
Proof.
  assert (ran : run Sample.base64ToBlob Sample.world1 Scenario.talk
                = Some (fst Scenario.after_talk, snd Scenario.after_talk)).
  { vm_compute. reflexivity. }
  assert (quiet : collect Sample.base64ToBlob interruption Sample.world1
                    Scenario.talk = []).
  { vm_compute. reflexivity. }
  split; [exact ran|]. split; [exact quiet|].
  exact (playback_keeps_arrival_order Sample.base64ToBlob Scenario.talk
           Sample.world1 _ _ ran quiet).
Defined.

(** X2 on the sample conversation. *)
Lemma flag_follows_playback_witness :
  in_step Sample.world1
  /\ run Sample.base64ToBlob Sample.world1 Sample.conversation
     = Some (fst Sample.after_conversation, snd Sample.after_conversation)
  /\ in_step (fst Sample.after_conversation).
Proof.
  assert (ok : in_step Sample.world1).
  { apply in_step_clear; [reflexivity|]. split; reflexivity. }
  assert (ran : run Sample.base64ToBlob Sample.world1 Sample.conversation
                = Some (fst Sample.after_conversation,
                        snd Sample.after_conversation)).
  { vm_compute. reflexivity. }
  split; [exact ok|]. split; [exact ran|].
  exact (proj1 (flag_follows_playback Sample.base64ToBlob Sample.conversation
                  Sample.world1 _ _ ok ran)).
Defined.

(** X3 on the sample conversation. *)
Lemma transcript_is_what_was_said_witness :
  run Sample.base64ToBlob Sample.world1 Sample.conversation
  = Some (fst Sample.after_conversation, snd Sample.after_conversation)
  /\ chat (page (fst Sample.after_conversation))
     = option_map
         (fun children =>
            (children ++ collect Sample.base64ToBlob spoken Sample.world1
                           Sample.conversation)%list)
         (chat (page Sample.world1)).
Proof.
  assert (ran : run Sample.base64ToBlob Sample.world1 Sample.conversation
                = Some (fst Sample.after_conversation,
                        snd Sample.after_conversation)).
  { vm_compute. reflexivity. }
  split; [exact ran|].
  exact (transcript_is_what_was_said Sample.base64ToBlob Sample.conversation
           Sample.world1 _ _ ran).
Defined.

(** X4 on the sample conversation. *)
Lemma recorder_stopped_at_most_once_witness :
  recorder_known Sample.world1
  /\ run Sample.base64ToBlob Sample.world1 Sample.conversation
     = Some (fst Sample.after_conversation, snd Sample.after_conversation)
  /\ NoDup (stopped_recorders (snd Sample.after_conversation)).
Proof.
  assert (known : recorder_known Sample.world1).
  { intros r H. discriminate H. }
  assert (ran : run Sample.base64ToBlob Sample.world1 Sample.conversation
                = Some (fst Sample.after_conversation,
                        snd Sample.after_conversation)).
  { vm_compute. reflexivity. }
  split; [exact known|]. split; [exact ran|].
  exact (proj1 (recorder_stopped_at_most_once Sample.base64ToBlob
                  Sample.conversation Sample.world1 _ _ known ran)).
Defined.

(** X5 on the sample conversation: one capture, one recorder started. *)
Lemma recorder_started_once_witness :
  run Sample.base64ToBlob Sample.world1 Sample.conversation
  = Some (fst Sample.after_conversation, snd Sample.after_conversation)
  /\ started_recorders (snd Sample.after_conversation)
     = created_recorders (snd Sample.after_conversation)
  /\ List.length (started_recorders (snd Sample.after_conversation))
     = List.length (filter is_capture Sample.conversation).
Proof.
  assert (ran : run Sample.base64ToBlob Sample.world1 Sample.conversation
                = Some (fst Sample.after_conversation,
                        snd Sample.after_conversation)).
  { vm_compute. reflexivity. }
  split; [exact ran|].
  pose proof (recorder_started_once Sample.base64ToBlob
                Sample.conversation Sample.world1 _ _ ran) as H.
  split; [exact (proj1 (proj2 H)) | exact (proj1 (proj2 (proj2 H)))].
Defined.

(** X6 on the sample page: an audio message that does not decode. *)
Lemma message_callback_throws_only_on_bad_audio_witness :
  Sample.base64ToBlob "%%%" (mimeType (vars Sample.world1))
  = Thrown "InvalidCharacterError"
  /\ onMessage Sample.base64ToBlob "10:00:00" (AudioOutput "%%%") Sample.world1
     = (Thrown "InvalidCharacterError", Sample.world1, []).
Proof.
  split; [reflexivity|].
  exact (proj1 (proj2 (message_callback_throws_only_on_bad_audio
                         Sample.base64ToBlob "10:00:00" (AudioOutput "%%%")
                         Sample.world1))
           "%%%" "InvalidCharacterError" eq_refl eq_refl).
Defined.

(** X8 on a key [btoa] refuses. *)
Lemma startup_stops_when_btoa_throws_witness :
  Sample.btoa "clef:secret" = Thrown "InvalidCharacterError"
  /\ main Sample.btoa Scenario.refused Sample.world0
     = (Thrown "InvalidCharacterError", Sample.world0,
        trace_of (requestMicrophonePermission (Normal (mkStream 7))
                    Sample.world0)).
Proof.
  split; [reflexivity|].
  exact (proj1 (proj2 (startup_stops_when_btoa_throws Sample.btoa
                         Sample.base64ToBlob Scenario.refused Sample.world0
                         "InvalidCharacterError" eq_refl))).
Defined.

(** X9 on an answer without [access_token]. *)
Lemma authenticate_leaves_a_token_witness :
  Sample.btoa "key:secret" = Normal "a2V5OnNlY3JldA=="
  /\ authenticate Sample.btoa (Some "key") (Some "secret")
       (Normal (mkResponse 1))
       (Normal (JObj [("error", JStr "invalid_client")])) Sample.world0
     = (Normal tt,
        mkWorld (set_accessToken
                   (token_after (accessToken (vars Sample.world0))
                      (Normal (mkResponse 1))
                      (Normal (JObj [("error", JStr "invalid_client")])))
                   (vars Sample.world0))
                (page Sample.world0),
        AFetch (token_request "a2V5OnNlY3JldA==")
          :: token_log (Normal (mkResponse 1))
               (Normal (JObj [("error", JStr "invalid_client")]))).
Proof.
  split; [reflexivity|].
  exact (proj1 (authenticate_leaves_a_token Sample.btoa
                  (Some "key") (Some "secret") "a2V5OnNlY3JldA=="
                  (Normal (mkResponse 1))
                  (Normal (JObj [("error", JStr "invalid_client")]))
                  Sample.world0 eq_refl)).
Defined.

(** X10 on the start whose token request is answered with an error
    object: the client is created with the text [undefined]. *)
Lemma startup_connects_with_the_token_left_witness :
  Sample.btoa "key:secret" = Normal "a2V5OnNlY3JldA=="
  /\ token_after (accessToken (vars Sample.world0))
       (fetchPromise Scenario.unauthorised) (jsonPromise Scenario.unauthorised)
     = Some "undefined"
  /\ completion (main Sample.btoa Scenario.unauthorised Sample.world0)
     = Normal tt.
Proof.
  split; [reflexivity|]. split; [reflexivity|].
  exact (proj1 (proj1 (startup_connects_with_the_token_left Sample.btoa
                         Scenario.unauthorised Sample.world0
                         "a2V5OnNlY3JldA==" eq_refl)
                  "undefined" eq_refl)).
Defined.

(** X11 on the sample page while the first audio plays. *)
Lemma audio_after_stop_plays_at_once_witness :
  Sample.base64ToBlob "aGk="
    (mimeType (vars (started Sample.hi [Sample.hi] Sample.world0)))
  = Normal Sample.hi
  /\ step Sample.base64ToBlob
       (stopped (started Sample.hi [Sample.hi] Sample.world0))
       (EvMessage "10:00:07" (AudioOutput "aGk="))
     = Some (Normal tt,
             started Sample.hi []
               (stopped (started Sample.hi [Sample.hi] Sample.world0)),
             [ACreateObjectURL Sample.hi;
              APlay (mkAudio
                       (nextId (page (started Sample.hi [Sample.hi]
                                        Sample.world0)))
                       Sample.hi)]).
Proof.
  split; [reflexivity|].
  exact (proj1 (audio_after_stop_plays_at_once Sample.base64ToBlob
                  "10:00:07" "10:00:09" "aGk=" Sample.hi
                  (started Sample.hi [Sample.hi] Sample.world0) eq_refl)).
Defined.
